(** * debug_api_auth.py: the API authentication debugger of the MCP API registry

    A shallow embedding of [src/debug_api_auth.py] and the properties its
    specification states about it.  The script is one linear procedure,
    [debug_api], that talks to three external systems through a
    [WorkspaceClient] (statement execution, connection registry, secret
    store) and prints a report; [main] is the [__main__] block.

    Printing and the external calls are recorded, in order, in a log of
    events; early [return]s and raised exceptions are the control flow of a
    small monad, [Run]. *)

From stdpp Require Import gmap strings pretty list fin_maps.

(** ** Python values and text *)

Module Py.

(** A value that is either [None] or a [str]: what a cell of a result row
    and an optional text attribute hold. *)
Inductive pyval : Type :=
| PNone
| PStr (s : string).

#[global] Instance pyval_eq_dec : EqDecision pyval.
Proof. solve_decision. Defined.

(** [f"{v}"] *)
Definition fmt (v : pyval) : string :=
  match v with
  | PNone => "None"
  | PStr s => s
  end.

(** [f"{o}"] for the result of [dict.get] on a [Dict[str, str]]. *)
Definition fmt_opt (o : option string) : string :=
  match o with
  | None => "None"
  | Some s => s
  end.

(** [bool(v)]: [None] and the empty text are false. *)
Definition truthy (v : pyval) : bool :=
  match v with
  | PNone => false
  | PStr s => negb (String.eqb s "")
  end.

(** [v or d] where the result is then formatted into text. *)
Definition or_else (v : pyval) (d : string) : string :=
  if truthy v then fmt v else d.

(** [v == 'lit'] *)
Definition eq_lit (v : pyval) (lit : string) : bool :=
  match v with
  | PNone => false
  | PStr s => String.eqb s lit
  end.

(** [v in [lit1, lit2, ...]] *)
Definition in_lits (v : pyval) (lits : list string) : bool :=
  existsb (eq_lit v) lits.

(** The line feed, ["\n"]. *)
Definition nl : string := String (Ascii.ascii_of_nat 10) "".

(** [s * n] *)
Fixpoint str_mul (s : string) (n : nat) : string :=
  match n with
  | O => ""
  | S n' => s +:+ str_mul s n'
  end.

(** [needle in hay] *)
Fixpoint contains (needle hay : string) : bool :=
  String.prefix needle hay ||
  match hay with
  | EmptyString => false
  | String _ rest => contains needle rest
  end.

(** [str.lower] on the ASCII letters; every other byte is kept, which is
    what [str.lower] does to the bytes of the text searched for below. *)
Definition lower_ascii (c : Ascii.ascii) : Ascii.ascii :=
  let n := Ascii.nat_of_ascii c in
  if (65 <=? n)%nat && (n <=? 90)%nat then Ascii.ascii_of_nat (n + 32) else c.

Fixpoint lower (s : string) : string :=
  match s with
  | EmptyString => EmptyString
  | String c rest => String (lower_ascii c) (lower rest)
  end.

(** [', '.join(parts)] *)
Fixpoint join_comma (parts : list string) : string :=
  match parts with
  | [] => ""
  | [p] => p
  | p :: rest => p +:+ ", " +:+ join_comma rest
  end.

(** [repr] of a [str]: single quotes unless the text has a single quote
    and no double quote; backslash, the chosen quote, tab, line feed and
    carriage return are escaped.  Other control characters, which [repr]
    writes as hexadecimal escapes, do not occur in the key names this is
    applied to. *)
Definition quote1 : Ascii.ascii := Ascii.ascii_of_nat 39.
Definition quote2 : Ascii.ascii := Ascii.ascii_of_nat 34.
Definition backslash : Ascii.ascii := Ascii.ascii_of_nat 92.

Fixpoint has_char (c : Ascii.ascii) (s : string) : bool :=
  match s with
  | EmptyString => false
  | String d rest => Ascii.eqb c d || has_char c rest
  end.

Fixpoint escape (q : Ascii.ascii) (s : string) : string :=
  match s with
  | EmptyString => EmptyString
  | String c rest =>
      let tail := escape q rest in
      if Ascii.eqb c backslash || Ascii.eqb c q then String backslash (String c tail)
      else if Ascii.eqb c (Ascii.ascii_of_nat 9) then String backslash (String (Ascii.ascii_of_nat 116) tail)
      else if Ascii.eqb c (Ascii.ascii_of_nat 10) then String backslash (String (Ascii.ascii_of_nat 110) tail)
      else if Ascii.eqb c (Ascii.ascii_of_nat 13) then String backslash (String (Ascii.ascii_of_nat 114) tail)
      else String c tail
  end.

Definition repr_str (s : string) : string :=
  let q := if has_char quote1 s && negb (has_char quote2 s) then quote2 else quote1 in
  String q (escape q s +:+ String q "").

(** [repr] of a list of [str], as [f"{keys}"] prints it. *)
Definition repr_list (l : list string) : string :=
  "[" +:+ join_comma (map repr_str l) +:+ "]".

End Py.

Import Py.

(** ** The external systems *)

(** What a call into the SDK gives back: a value, or a raised exception of
    which the script only ever looks at [str(e)]. *)
Inductive result (A : Type) : Type :=
| Ok (a : A)
| Raises (text : string).
Arguments Ok {A} a.
Arguments Raises {A} text.

(** The arguments of [statement_execution.execute_statement].  The script
    passes [warehouse_id], [statement] and [wait_timeout]; [parameters], the
    SDK's list of named statement parameters, is left at its default. *)
Record StatementRequest : Type := {
  warehouse_id : string;
  statement : string;
  wait_timeout : string;
  parameters : list (string * string)
}.

Record ResultData : Type := {
  data_array : option (list (list pyval))
}.

(** The response of [execute_statement].  [manifest_columns] stands for
    [[col.name for col in result.manifest.schema.columns]]: the ordered
    column names, or the exception raised when a link of that chain is
    missing. *)
Record StatementResponse : Type := {
  result_ : option ResultData;
  manifest_columns : result (list string)
}.

Record ConnectionInfo : Type := {
  options : option (gmap string string);
  owner : pyval
}.

(** The workspace the client [w] talks to: the answer of each of the three
    external systems to each request.  Building the client handle itself
    ([WorkspaceClient()]) resolves credentials outside this program and is
    not part of the model. *)
Record WorkspaceClient : Type := {
  execute_statement : StatementRequest -> result StatementResponse;
  connections_get : string -> result ConnectionInfo;
  list_secrets : string -> result (list string)
}.

(** ** Runs: a log of events and a control-flow outcome *)

Inductive call : Type :=
| ExecuteStatement (req : StatementRequest)
| ConnectionsGet (full_name : string)
| ListSecrets (scope : string).

Inductive event : Type :=
| Printed (line : string)
| Call (c : call).

(** Exceptions as the script can meet them: one raised by the SDK or by the
    interpreter with its text, or the read of a local variable that was
    never assigned. *)
Inductive exn : Type :=
| Exception (text : string)
| UnboundLocalError (name : string).

(** [str(e)] *)
Definition str_exn (e : exn) : string :=
  match e with
  | Exception text => text
  | UnboundLocalError name =>
      "cannot access local variable '" +:+ name +:+
      "' where it is not associated with a value"
  end.

Inductive flow (A : Type) : Type :=
| Next (a : A)
| Returned
| Thrown (e : exn).
Arguments Next {A} a.
Arguments Returned {A}.
Arguments Thrown {A} e.

Definition Run (A : Type) : Type := (list event * flow A)%type.

#[global] Instance run_ret : MRet Run := λ A a, ([], Next a).

#[global] Instance run_bind : MBind Run := λ A B f m,
  match m with
  | (es, Next a) => let '(es', r) := f a in (es ++ es', r)
  | (es, Returned) => (es, Returned)
  | (es, Thrown e) => (es, Thrown e)
  end.

Definition print (line : string) : Run unit := ([Printed line], Next tt).

(** [return] in the middle of the function. *)
Definition return_ {A} : Run A := ([], Returned).

Definition raise {A} (e : exn) : Run A := ([], Thrown e).

(** A call into the SDK: logged, then its value or its exception. *)
Definition sdk {A} (c : call) (r : result A) : Run A :=
  match r with
  | Ok a => ([Call c], Next a)
  | Raises text => ([Call c], Thrown (Exception text))
  end.

(** A computation of the interpreter that can raise. *)
Definition lift {A} (r : result A) : Run A :=
  match r with
  | Ok a => mret a
  | Raises text => raise (Exception text)
  end.

(** [try: body except Exception as e: handler e] *)
Definition try_except {A} (body : Run A) (handler : exn -> Run A) : Run A :=
  match body with
  | (es, Thrown e) => let '(es', r) := handler e in (es ++ es', r)
  | other => other
  end.

(** Reading a local variable that may not have been assigned. *)
Definition load_local {A} (name : string) (v : option A) : Run A :=
  match v with
  | Some a => mret a
  | None => raise (UnboundLocalError name)
  end.

(** [for x in l: body x] *)
Fixpoint for_each {A} (l : list A) (body : A -> Run unit) : Run unit :=
  match l with
  | [] => mret tt
  | x :: rest => body x ;; for_each rest body
  end.

(** What the run wrote to standard output, one entry per [print]. *)
Fixpoint prints (es : list event) : list string :=
  match es with
  | [] => []
  | Printed line :: rest => line :: prints rest
  | Call _ :: rest => prints rest
  end.

(** The requests the run sent to the external systems. *)
Fixpoint calls_of (es : list event) : list call :=
  match es with
  | [] => []
  | Printed _ :: rest => calls_of rest
  | Call c :: rest => c :: calls_of rest
  end.

Definition stdout {A} (r : Run A) : list string := prints (fst r).
Definition calls {A} (r : Run A) : list call := calls_of (fst r).
Definition outcome {A} (r : Run A) : flow A := snd r.

(** ** The script *)

(** [d.get(key)] on the row dictionary: [None] when the key is missing. *)
Definition get (d : gmap string pyval) (key : string) : pyval :=
  default PNone (d !! key).

(** [{columns[i]: row[i] for i in range(len(columns))}]: a later column of
    the same name overwrites an earlier one, and a row shorter than the
    column list raises [IndexError]. *)
Definition dict_of_row (columns : list string) (row : list pyval)
  : result (gmap string pyval) :=
  foldl
    (λ acc i,
       match acc with
       | Raises text => Raises text
       | Ok d =>
           match columns !! i, row !! i with
           | Some c, Some v => Ok (<[c := v]> d)
           | _, _ => Raises "list index out of range"
           end
       end)
    (Ok ∅) (seq 0 (length columns)).

(** [bool(conn.options)]: an absent and an empty mapping are both false. *)
Definition dict_truthy (o : option (gmap string string)) : bool :=
  match o with
  | Some d => negb (bool_decide (d = ∅))
  | None => false
  end.

(** [conn.options.get(key)] *)
Definition options_get (o : option (gmap string string)) (key : string)
  : option string :=
  o ≫= λ d, d !! key.

Definition rule : string := str_mul "=" 80.

Definition banner : Run unit :=
  print (nl +:+ rule) ;;
  print "🔍 API Authentication Debugger" ;;
  print (rule +:+ nl).

Definition table_name_of (catalog schema : string) : string :=
  catalog +:+ "." +:+ schema +:+ ".api_http_registry".

(** The statement text [query]. *)
Definition registry_query (table_name api_id : string) : string :=
  nl +:+
  "        SELECT " +:+ nl +:+
  "            api_id," +:+ nl +:+
  "            api_name," +:+ nl +:+
  "            connection_name," +:+ nl +:+
  "            host," +:+ nl +:+
  "            base_path," +:+ nl +:+
  "            api_path," +:+ nl +:+
  "            auth_type," +:+ nl +:+
  "            secret_scope," +:+ nl +:+
  "            http_method," +:+ nl +:+
  "            status" +:+ nl +:+
  "        FROM " +:+ table_name +:+ nl +:+
  "        WHERE api_id = '" +:+ api_id +:+ "'" +:+ nl +:+
  "    ".

(** The request of Step 1. *)
Definition registry_request (api_id warehouse catalog schema : string)
  : StatementRequest :=
  {| warehouse_id := warehouse;
     statement := registry_query (table_name_of catalog schema) api_id;
     wait_timeout := "30s";
     parameters := [] |}.

(** [not result.result or not result.result.data_array
     or len(result.result.data_array) == 0]; otherwise the first row. *)
Definition first_row (response : StatementResponse) : option (list pyval) :=
  match result_ response with
  | None => None
  | Some data =>
      match data_array data with
      | None | Some [] => None
      | Some (row :: _) => Some row
      end
  end.

(** Step 1: look the API up in the registry table. *)
Definition step1 (w : WorkspaceClient) (api_id warehouse catalog schema : string)
  : Run (gmap string pyval) :=
  print "📊 Step 1: Checking API registry..." ;;
  let table_name := table_name_of catalog schema in
  let request := registry_request api_id warehouse catalog schema in
  try_except
    (response ← sdk (ExecuteStatement request) (execute_statement w request) ;
     match first_row response with
     | None =>
         print ("❌ API with id '" +:+ api_id +:+ "' not found in registry!") ;;
         print ("   Table: " +:+ table_name) ;;
         return_
     | Some row =>
         columns ← lift (manifest_columns response) ;
         api_data ← lift (dict_of_row columns row) ;
         print "✅ API found in registry:" ;;
         print ("   Name: " +:+ fmt (get api_data "api_name")) ;;
         print ("   Connection: " +:+ fmt (get api_data "connection_name")) ;;
         print ("   Auth Type: " +:+ fmt (get api_data "auth_type")) ;;
         print ("   Secret Scope: " +:+ or_else (get api_data "secret_scope") "None") ;;
         print ("   Status: " +:+ fmt (get api_data "status")) ;;
         print ("   Endpoint: " +:+ fmt (get api_data "host") +:+
                or_else (get api_data "base_path") "" +:+
                fmt (get api_data "api_path")) ;;
         mret api_data
     end)
    (λ e,
       print ("❌ Error querying registry: " +:+ str_exn e) ;;
       return_).

Definition full_connection_name_of (catalog schema : string) (connection_name : pyval)
  : string :=
  catalog +:+ "." +:+ schema +:+ "." +:+ fmt connection_name.

(** Step 2: fetch the connection and classify its [bearer_token] option.
    The result is the local variable [bearer_token]: it is assigned only
    under [if conn.options:]. *)
Definition step2 (w : WorkspaceClient) (full_connection_name : string)
  : Run (option string) :=
  print (nl +:+ "🔌 Step 2: Checking UC HTTP Connection...") ;;
  try_except
    (conn ← sdk (ConnectionsGet full_connection_name)
              (connections_get w full_connection_name) ;
     print ("✅ Connection exists: " +:+ full_connection_name) ;;
     print ("   Host: " +:+
            (if dict_truthy (options conn)
             then fmt_opt (options_get (options conn) "host") else "N/A")) ;;
     print ("   Base Path: " +:+
            (if dict_truthy (options conn)
             then fmt_opt (options_get (options conn) "base_path") else "N/A")) ;;
     print ("   Owner: " +:+ fmt (owner conn)) ;;
     if dict_truthy (options conn) then
       let bearer_token := default "NOT_SET" (options_get (options conn) "bearer_token") in
       (if String.eqb bearer_token "" then
          print "   Bearer Token: EMPTY ✅ (correct for api_key or none auth)"
        else if contains "secret(" bearer_token then
          print "   Bearer Token: SECRET REFERENCE ✅ (correct for bearer_token auth)"
        else
          print ("   Bearer Token: " +:+ bearer_token)) ;;
       mret (Some bearer_token)
     else mret None)
    (λ e,
       print ("❌ Connection not found or error: " +:+ str_exn e) ;;
       print ("   Expected name: " +:+ full_connection_name) ;;
       return_).

(** The condition under which Step 3 talks to the secret store. *)
Definition secrets_needed (secret_scope auth_type : pyval) : bool :=
  truthy secret_scope && in_lits auth_type ["api_key"; "bearer_token"].

(** Step 3: check the secret scope, when one is needed. *)
Definition step3 (w : WorkspaceClient) (secret_scope auth_type : pyval) : Run unit :=
  if secrets_needed secret_scope auth_type then
    print (nl +:+ "🔐 Step 3: Checking secret scope...") ;;
    try_except
      (secret_keys ← sdk (ListSecrets (fmt secret_scope))
                       (list_secrets w (fmt secret_scope)) ;
       print ("✅ Secret scope exists: " +:+ fmt secret_scope) ;;
       print ("   Number of secrets: " +:+ pretty (length secret_keys)) ;;
       let expected_key :=
         if eq_lit auth_type "bearer_token" then "bearer_token" else "api_key" in
       if bool_decide (expected_key ∈ secret_keys) then
         print ("   ✅ Expected secret key '" +:+ expected_key +:+ "' found")
       else
         print ("   ❌ Expected secret key '" +:+ expected_key +:+ "' NOT FOUND") ;;
         print ("   Available keys: " +:+ repr_list secret_keys))
      (λ e,
         print ("❌ Error accessing secret scope: " +:+ str_exn e) ;;
         if contains "does not exist" (lower (str_exn e)) then
           print ("   The secret scope '" +:+ fmt secret_scope +:+ "' doesn't exist!") ;;
           print ("   Create it with: databricks secrets create-scope " +:+ fmt secret_scope)
         else mret tt)
  else
    print (nl +:+ "🔐 Step 3: Secret scope not needed (auth_type=" +:+ fmt auth_type +:+ ")").

(** Step 4: the connection test, which the script only announces. *)
Definition step4 : Run unit :=
  print (nl +:+ "🧪 Step 4: Testing connection...") ;;
  print "   (Skipping - would require serving endpoints API)".

(** The three statement templates of Step 5. *)
Definition sql_none (full_connection_name http_method api_path : string) : string :=
  "SELECT http_request(
  conn => '" +:+ full_connection_name +:+ "',
  method => '" +:+ http_method +:+ "',
  path => '" +:+ api_path +:+ "',
  headers => map('Accept', 'application/json')
);".

Definition sql_api_key (full_connection_name http_method api_path secret_scope : string)
  : string :=
  "SELECT http_request(
  conn => '" +:+ full_connection_name +:+ "',
  method => '" +:+ http_method +:+ "',
  path => '" +:+ api_path +:+ "',
  params => map(
    'api_key', secret('" +:+ secret_scope +:+ "', 'api_key'),
    -- Add your parameters here
    'param1', 'value1'
  ),
  headers => map('Accept', 'application/json')
);".

Definition sql_bearer_token (full_connection_name http_method api_path : string) : string :=
  "SELECT http_request(
  conn => '" +:+ full_connection_name +:+ "',
  method => '" +:+ http_method +:+ "',
  path => '" +:+ api_path +:+ "',
  params => map(
    -- Add your parameters here
    'param1', 'value1'
  ),
  headers => map('Accept', 'application/json')
);".

(** The statement Step 5 prints between the code fences, if any. *)
Definition test_sql (full_connection_name : string) (api_data : gmap string pyval)
    (auth_type secret_scope : pyval) : option string :=
  if eq_lit auth_type "none" then
    Some (sql_none full_connection_name
            (fmt (get api_data "http_method")) (fmt (get api_data "api_path")))
  else if eq_lit auth_type "api_key" then
    Some (sql_api_key full_connection_name
            (fmt (get api_data "http_method")) (fmt (get api_data "api_path"))
            (fmt secret_scope))
  else if eq_lit auth_type "bearer_token" then
    Some (sql_bearer_token full_connection_name
            (fmt (get api_data "http_method")) (fmt (get api_data "api_path")))
  else None.

(** Step 5: print a test statement for the API. *)
Definition step5 (full_connection_name : string) (api_data : gmap string pyval)
    (auth_type secret_scope : pyval) : Run unit :=
  print (nl +:+ "📝 Step 5: Generated test SQL:") ;;
  print (nl +:+ "```sql") ;;
  match test_sql full_connection_name api_data auth_type secret_scope with
  | Some sql => print sql
  | None => mret tt
  end ;;
  print ("```" +:+ nl).

(** The part of the summary that depends on [auth_type]: it prints the
    expected shape of the connection and returns the [issues] list. *)
Definition check_configuration (auth_type : pyval) (bearer_token : option string)
  : Run (list string) :=
  let issues : list string := [] in
  if eq_lit auth_type "api_key" then
    print (nl +:+ "✅ For API key auth, connection should have:") ;;
    print "   - bearer_token: EMPTY string" ;;
    print "   - Secret scope with key 'api_key'" ;;
    print "   - API key passed in params at runtime" ;;
    bearer_token ← load_local "bearer_token" bearer_token ;
    if negb (String.eqb bearer_token "") then
      mret (issues ++ ["Connection has non-empty bearer_token for api_key auth"])
    else mret issues
  else if eq_lit auth_type "bearer_token" then
    print (nl +:+ "✅ For bearer token auth, connection should have:") ;;
    print "   - bearer_token: secret reference" ;;
    print "   - Secret scope with key 'bearer_token'" ;;
    print "   - Token automatically included in Authorization header" ;;
    bearer_token ← load_local "bearer_token" bearer_token ;
    if negb (contains "secret(" bearer_token) then
      mret (issues ++ ["Connection doesn't reference secret for bearer_token auth"])
    else mret issues
  else if eq_lit auth_type "none" then
    print (nl +:+ "✅ For public APIs, connection should have:") ;;
    print "   - bearer_token: EMPTY string" ;;
    print "   - No secret scope needed" ;;
    bearer_token ← load_local "bearer_token" bearer_token ;
    if negb (String.eqb bearer_token "") then
      mret (issues ++
            ["Connection has non-empty bearer_token for public API (should be empty string)"])
    else mret issues
  else mret issues.

(** The verdict printed from the [issues] list. *)
Definition report (issues : list string) : Run unit :=
  match issues with
  | _ :: _ =>
      print (nl +:+ "⚠️  Potential Issues Found:") ;;
      for_each issues (λ issue, print ("   - " +:+ issue))
  | [] =>
      print (nl +:+ "✅ Configuration looks correct!")
  end.

(** Step 6: the summary. *)
Definition summary (auth_type : pyval) (bearer_token : option string) : Run unit :=
  print rule ;;
  print "📋 Summary" ;;
  print rule ;;
  issues ← check_configuration auth_type bearer_token ;
  report issues ;;
  print (nl +:+ rule +:+ nl).

(** [debug_api(api_id, warehouse_id, catalog, schema)] *)
Definition debug_api (w : WorkspaceClient) (api_id warehouse catalog schema : string)
  : Run unit :=
  banner ;;
  api_data ← step1 w api_id warehouse catalog schema ;
  let connection_name := get api_data "connection_name" in
  let auth_type := get api_data "auth_type" in
  let secret_scope := get api_data "secret_scope" in
  let full_connection_name := full_connection_name_of catalog schema connection_name in
  bearer_token ← step2 w full_connection_name ;
  step3 w secret_scope auth_type ;;
  step4 ;;
  step5 full_connection_name api_data auth_type secret_scope ;;
  summary auth_type bearer_token.

(** The usage text of the [__main__] block. *)
Definition usage : list event :=
  [ Printed "Usage: python debug_api_auth.py <api_id> <warehouse_id> <catalog> <schema>";
    Printed (nl +:+ "Example:");
    Printed "  python debug_api_auth.py abc-123 your-warehouse-id my_catalog my_schema" ].

(** The exit status of the interpreter after [debug_api]: 0 when the function
    came back, 1 when an exception left it. *)
Definition exit_status {A} (f : flow A) : nat :=
  match f with
  | Thrown _ => 1
  | _ => 0
  end.

(** The [__main__] block on [sys.argv]: the log of the process and its exit
    status. *)
Definition main (w : WorkspaceClient) (argv : list string) : list event * nat :=
  if negb (length argv =? 5) then (usage, 1)
  else
    let api_id := nth 1 argv "" in
    let warehouse := nth 2 argv "" in
    let catalog := nth 3 argv "" in
    let schema := nth 4 argv "" in
    let r := debug_api w api_id warehouse catalog schema in
    (fst r, exit_status (snd r)).

(** The positional arguments: [sys.argv] without the program name. *)
Definition positional (argv : list string) : list string := tail argv.

(** ** Runs as logs *)

(** The log [es], then the run [r]. *)
Definition after {A} (es : list event) (r : Run A) : Run A :=
  (es ++ fst r, snd r).

(** ** How far a run gets *)

(** Step 1 finds the API: the statement comes back with a first row, and the
    row decodes, along the manifest's columns, to [api_data]. *)
Definition registry_found (w : WorkspaceClient) (api_id warehouse catalog schema : string)
    (api_data : gmap string pyval) : Prop :=
  ∃ response row columns,
    execute_statement w (registry_request api_id warehouse catalog schema) = Ok response ∧
    first_row response = Some row ∧
    manifest_columns response = Ok columns ∧
    dict_of_row columns row = Ok api_data.

(** Steps 1 and 2 both succeed: the run gets to Step 3 with the row
    [api_data] and the connection [conn]. *)
Definition reaches_step3 (w : WorkspaceClient) (api_id warehouse catalog schema : string)
    (api_data : gmap string pyval) (conn : ConnectionInfo) : Prop :=
  registry_found w api_id warehouse catalog schema api_data ∧
  connections_get w
    (full_connection_name_of catalog schema (get api_data "connection_name")) = Ok conn.

(** The value of the local [bearer_token] after Step 2. *)
Definition bearer_token_of (conn : ConnectionInfo) : option string :=
  if dict_truthy (options conn)
  then Some (default "NOT_SET" (options_get (options conn) "bearer_token"))
  else None.

(** ** What the specification talks about *)

(** A value handed to the statement executor as a named parameter, and
    absent from the statement text. *)
Definition supplied_as_parameter (req : StatementRequest) (value : string) : Prop :=
  value ∈ (parameters req).*2 ∧ contains value (statement req) = false.

(** The observed [bearer_token] violates the shape expected for the
    [auth_type]: it is non-empty for [api_key] and for [none], and it holds no
    secret reference for [bearer_token]. *)
Definition violates_expected_shape (auth_type : pyval) (bearer_token : string) : Prop :=
  (auth_type = PStr "api_key" ∧ bearer_token ≠ "") ∨
  (auth_type = PStr "bearer_token" ∧ contains "secret(" bearer_token = false) ∨
  (auth_type = PStr "none" ∧ bearer_token ≠ "").

(** The statement came back with zero rows: no result, no data array, or an
    empty one. *)
Definition zero_rows (response : StatementResponse) : Prop :=
  match result_ response with
  | None => True
  | Some data => data_array data = None ∨ data_array data = Some []
  end.

(** [secret_scope] is set: it is a non-empty text. *)
Definition is_set (secret_scope : pyval) : Prop :=
  ∃ s, secret_scope = PStr s ∧ s ≠ "".

(** The pieces of the statement of Step 5: everything up to the path, the two
    forms of the [params] clause, and the closing [headers] clause. *)
Definition sql_head (full_connection_name http_method api_path : string) : string :=
  "SELECT http_request(" +:+ nl +:+
  "  conn => '" +:+ full_connection_name +:+ "'," +:+ nl +:+
  "  method => '" +:+ http_method +:+ "'," +:+ nl +:+
  "  path => '" +:+ api_path +:+ "'," +:+ nl.

Definition params_api_key (secret_scope : string) : string :=
  "  params => map(" +:+ nl +:+
  "    'api_key', secret('" +:+ secret_scope +:+ "', 'api_key')," +:+ nl +:+
  "    -- Add your parameters here" +:+ nl +:+
  "    'param1', 'value1'" +:+ nl +:+
  "  )," +:+ nl.

Definition params_bearer_token : string :=
  "  params => map(" +:+ nl +:+
  "    -- Add your parameters here" +:+ nl +:+
  "    'param1', 'value1'" +:+ nl +:+
  "  )," +:+ nl.

Definition sql_headers : string :=
  "  headers => map('Accept', 'application/json')" +:+ nl +:+ ");".

(** The four lines of Step 5 around the statement [sql], somewhere in the
    output of the run [r]. *)
Definition prints_test_sql {A} (r : Run A) (sql : string) : Prop :=
  ∃ before rest,
    stdout r =
      before ++
      [nl +:+ "📝 Step 5: Generated test SQL:"; nl +:+ "```sql"; sql; "```" +:+ nl] ++
      rest.

(** Step 1 gets a first row and cannot decode it: reading the column names
    raises, or the row is shorter than the column list.  [text] is the text
    of the exception. *)
Definition decode_fails (w : WorkspaceClient) (api_id warehouse catalog schema : string)
    (text : string) : Prop :=
  ∃ response row,
    execute_statement w (registry_request api_id warehouse catalog schema) = Ok response ∧
    first_row response = Some row ∧
    (manifest_columns response = Raises text ∨
     ∃ columns,
       manifest_columns response = Ok columns ∧ dict_of_row columns row = Raises text).

(** The three auth types the script knows. *)
Definition known_auth_type (auth_type : pyval) : Prop :=
  auth_type = PStr "api_key" ∨ auth_type = PStr "bearer_token" ∨ auth_type = PStr "none".

(** The lines of the verdict on an [issues] list: the confirmation when it is
    empty, the heading and one line per issue otherwise. *)
Definition verdict (issues : list string) : list string :=
  match issues with
  | [] => [nl +:+ "✅ Configuration looks correct!"]
  | _ :: _ =>
      (nl +:+ "⚠️  Potential Issues Found:") :: ((λ issue, "   - " +:+ issue) <$> issues)
  end.

(** The ten columns of the registry lookup. *)
Definition registry_columns : list string :=
  ["api_id"; "api_name"; "connection_name"; "host"; "base_path"; "api_path";
   "auth_type"; "secret_scope"; "http_method"; "status"].

(** The select list as the statement lays it out: one column a line, a comma
    after each but the last. *)
Fixpoint column_lines (columns : list string) : string :=
  match columns with
  | [] => ""
  | [c] => "            " +:+ c +:+ nl
  | c :: rest => "            " +:+ c +:+ "," +:+ nl +:+ column_lines rest
  end.

(** A read query in the layout of the script: [SELECT] of [columns] [FROM]
    [table] [WHERE] [condition], and nothing else. *)
Definition select_text (columns : list string) (table condition : string) : string :=
  nl +:+ "        SELECT " +:+ nl +:+
  column_lines columns +:+
  "        FROM " +:+ table +:+ nl +:+
  "        WHERE " +:+ condition +:+ nl +:+
  "    ".

(** The letters, lower case beside upper case. *)
Definition letters : list (Ascii.ascii * Ascii.ascii) :=
  zip (String.list_ascii_of_string "abcdefghijklmnopqrstuvwxyz")
      (String.list_ascii_of_string "ABCDEFGHIJKLMNOPQRSTUVWXYZ").

(** Two characters that are the same, or the same letter in the two cases. *)
Definition same_letter (c d : Ascii.ascii) : bool :=
  Ascii.eqb c d ||
  existsb (λ p, Ascii.eqb c (fst p) && Ascii.eqb d (snd p) ||
                Ascii.eqb c (snd p) && Ascii.eqb d (fst p)) letters.

(** Two texts that differ at most in the case of their letters. *)
Fixpoint same_ignoring_case (a b : string) : bool :=
  match a, b with
  | EmptyString, EmptyString => true
  | String c a', String d b' => same_letter c d && same_ignoring_case a' b'
  | _, _ => false
  end.

(** [text] holds [words] somewhere, in any mix of upper and lower case. *)
Definition says (text words : string) : Prop :=
  ∃ before found after,
    text = before +:+ found +:+ after ∧ same_ignoring_case found words = true.

(** [debug_api] from its first lines on: after the banner the client handle
    is built, [w = WorkspaceClient()], outside every [try]; [client] is what
    building it gives, a workspace to talk to or a raised exception. *)
Definition debug_api_from_start (client : result WorkspaceClient)
    (api_id warehouse catalog schema : string) : Run unit :=
  match client with
  | Ok w => debug_api w api_id warehouse catalog schema
  | Raises text => banner ;; raise (Exception text)
  end.

(** The [__main__] block with the client still to be built. *)
Definition main_from_start (client : result WorkspaceClient) (argv : list string)
  : list event * nat :=
  if negb (length argv =? 5) then (usage, 1)
  else
    let r := debug_api_from_start client (nth 1 argv "") (nth 2 argv "")
               (nth 3 argv "") (nth 4 argv "") in
    (fst r, exit_status (snd r)).

(** ** Sample workspaces *)

Module Sample.

Definition columns : list string :=
  ["api_id"; "api_name"; "connection_name"; "host"; "base_path"; "api_path";
   "auth_type"; "secret_scope"; "http_method"; "status"].

Definition row (auth_type secret_scope : pyval) : list pyval :=
  [PStr "abc-123"; PStr "Weather"; PStr "weather_conn"; PStr "https://api.example.com";
   PNone; PStr "/v1/forecast"; auth_type; secret_scope; PStr "GET"; PStr "active"].

Definition response (rows : list (list pyval)) : StatementResponse :=
  {| result_ := Some {| data_array := Some rows |};
     manifest_columns := Ok columns |}.

(** The row as the dictionary Step 1 builds from it. *)
Definition api_data (auth_type secret_scope : pyval) : gmap string pyval :=
  <["status" := PStr "active"]> (<["http_method" := PStr "GET"]> (
  <["secret_scope" := secret_scope]> (<["auth_type" := auth_type]> (
  <["api_path" := PStr "/v1/forecast"]> (<["base_path" := PNone]> (
  <["host" := PStr "https://api.example.com"]> (
  <["connection_name" := PStr "weather_conn"]> (<["api_name" := PStr "Weather"]> (
  <["api_id" := PStr "abc-123"]> ∅))))))))).

Definition connection (opts : option (gmap string string)) : ConnectionInfo :=
  {| options := opts; owner := PStr "admin" |}.

(** A workspace whose registry holds one API with the given [auth_type] and
    [secret_scope], whose connection has the options [opts], and whose
    secret store answers [secrets]. *)
Definition workspace (auth_type secret_scope : pyval)
    (opts : option (gmap string string)) (secrets : result (list string))
  : WorkspaceClient :=
  {| execute_statement := λ _, Ok (response [row auth_type secret_scope]);
     connections_get := λ _, Ok (connection opts);
     list_secrets := λ _, secrets |}.

(** A workspace whose registry table has no row for the API. *)
Definition empty_registry : WorkspaceClient :=
  {| execute_statement := λ _, Ok (response []);
     connections_get := λ _, Raises "unreachable";
     list_secrets := λ _, Raises "unreachable" |}.

(** A workspace whose statement executor fails. *)
Definition broken_warehouse : WorkspaceClient :=
  {| execute_statement := λ _, Raises "warehouse is stopped";
     connections_get := λ _, Raises "unreachable";
     list_secrets := λ _, Raises "unreachable" |}.

(** A workspace that has the API but not its connection. *)
Definition no_connection : WorkspaceClient :=
  {| execute_statement := λ _, Ok (response [row (PStr "api_key") (PStr "scope1")]);
     connections_get := λ _, Raises "Connection 'main.default.weather_conn' does not exist.";
     list_secrets := λ _, Raises "unreachable" |}.

Definition host_only : gmap string string := {[ "host" := "https://api.example.com" ]}.

(** A workspace whose registry answers with a row of two cells under the
    ten columns. *)
Definition short_row : WorkspaceClient :=
  {| execute_statement := λ _, Ok (response [[PStr "abc-123"; PStr "Weather"]]);
     connections_get := λ _, Raises "unreachable";
     list_secrets := λ _, Raises "unreachable" |}.

Definition argv : list string :=
  ["debug_api_auth.py"; "abc-123"; "wh-1"; "main"; "default"].

End Sample.

(** ** Facts about text *)

Section text_facts.

Lemma append_nil (b : string) : "" +:+ b = b.
Proof. reflexivity. Qed.

Lemma append_cons (c : Ascii.ascii) (a b : string) :
  String c a +:+ b = String c (a +:+ b).
Proof. reflexivity. Qed.

Lemma append_assoc (a b c : string) : (a +:+ b) +:+ c = a +:+ (b +:+ c).
Proof.
  induction a as [|x a IH]; [done|]. by rewrite !append_cons, IH.
Qed.

Lemma append_empty_r (a : string) : a +:+ "" = a.
Proof.
  induction a as [|x a IH]; [done|]. by rewrite append_cons, IH.
Qed.

Lemma prefix_here (needle rest : string) :
  String.prefix needle (needle +:+ rest) = true.
Proof.
  induction needle as [|c needle IH].
  - by destruct rest.
  - rewrite append_cons. simpl.
    destruct (Ascii.ascii_dec c c); [exact IH | done].
Qed.

Lemma prefix_split (needle hay : string) :
  String.prefix needle hay = true → ∃ rest, hay = needle +:+ rest.
Proof.
  revert hay. induction needle as [|c needle IH]; intros hay H.
  - by exists hay.
  - destruct hay as [|d hay]; simpl in H; [done|].
    destruct (Ascii.ascii_dec c d) as [->|]; [|done].
    destruct (IH hay H) as [rest ->]. by exists rest.
Qed.

Lemma contains_unfold (needle hay : string) :
  contains needle hay =
    String.prefix needle hay ||
    match hay with
    | EmptyString => false
    | String _ rest => contains needle rest
    end.
Proof. by destruct hay. Qed.

Lemma contains_prefix (needle rest : string) :
  contains needle (needle +:+ rest) = true.
Proof. by rewrite contains_unfold, prefix_here. Qed.

Lemma contains_skip (before needle hay : string) :
  contains needle hay = true → contains needle (before +:+ hay) = true.
Proof.
  intros H. induction before as [|c before IH]; [done|].
  rewrite append_cons, contains_unfold, IH. apply orb_true_r.
Qed.

(** [contains] is the substring test. *)
Lemma contains_spec (needle hay : string) :
  contains needle hay = true ↔ ∃ before after, hay = before +:+ needle +:+ after.
Proof.
  split.
  - induction hay as [|c hay IH]; rewrite contains_unfold; intros H.
    + rewrite orb_false_r in H. apply prefix_split in H as [rest ->].
      by exists "", rest.
    + apply orb_true_iff in H as [H|H].
      * apply prefix_split in H as [rest ->]. by exists "", rest.
      * destruct (IH H) as (before & after & ->).
        by exists (String c before), after.
  - intros (before & after & ->). apply contains_skip, contains_prefix.
Qed.

Lemma contains_inside (before needle after : string) :
  contains needle (before +:+ needle +:+ after) = true.
Proof. apply contains_spec. eauto. Qed.

Lemma contains_suffix (before needle : string) :
  contains needle (before +:+ needle) = true.
Proof.
  rewrite <- (append_empty_r needle) at 2. apply contains_inside.
Qed.

Lemma contains_join (k : string) (parts : list string) :
  k ∈ parts → contains k (join_comma parts) = true.
Proof.
  induction parts as [|p parts IH]; intros Hin; [by apply elem_of_nil in Hin|].
  apply elem_of_cons in Hin as [->|Hin].
  - destruct parts as [|p' parts].
    + apply (contains_suffix "").
    + apply contains_prefix.
  - destruct parts as [|p' parts]; [by apply elem_of_nil in Hin|].
    change (join_comma (p :: p' :: parts))
      with (p +:+ ", " +:+ join_comma (p' :: parts)).
    apply contains_skip, (contains_skip ", "), IH, Hin.
Qed.

(** Every listed key shows, quoted, in the printed list. *)
Lemma repr_list_shows (k : string) (keys : list string) :
  k ∈ keys → contains (repr_str k) (repr_list keys) = true.
Proof.
  intros Hin. unfold repr_list.
  apply (contains_skip "["), contains_spec.
  assert (contains (repr_str k) (join_comma (map repr_str keys)) = true) as H.
  { apply contains_join, list_elem_of_fmap. eauto. }
  apply contains_spec in H as (before & after & ->).
  exists before, (after +:+ "]"). by rewrite !append_assoc.
Qed.

Lemma prefix_same (a needle hay : string) :
  String.prefix needle hay = true → String.prefix (a +:+ needle) (a +:+ hay) = true.
Proof.
  intros H. induction a as [|c a IH]; [done|].
  rewrite !append_cons. simpl. by destruct (Ascii.ascii_dec c c).
Qed.

Lemma prefix_all (a : string) : String.prefix a a = true.
Proof. rewrite <- (append_empty_r a) at 2. apply prefix_here. Qed.

Lemma contains_of_prefix (needle hay : string) :
  String.prefix needle hay = true → contains needle hay = true.
Proof. intros H. by rewrite contains_unfold, H. Qed.

End text_facts.

(** Finds a text written as a chain of [+:+] inside another such chain. *)
Ltac prefix_text :=
  repeat apply prefix_same; first [apply prefix_here | apply prefix_all].

Ltac find_text :=
  rewrite ?append_assoc;
  repeat first [ apply contains_of_prefix; solve [prefix_text]
               | apply contains_skip ];
  try reflexivity.

(** ** Upper and lower case *)

Lemma lower_app (a b : string) : lower (a +:+ b) = lower a +:+ lower b.
Proof.
  induction a as [|c a IH]; [done|].
  rewrite append_cons. simpl. by rewrite IH, append_cons.
Qed.

Lemma lower_split (text a b : string) :
  lower text = a +:+ b → ∃ ta tb, text = ta +:+ tb ∧ lower ta = a ∧ lower tb = b.
Proof.
  revert text. induction a as [|c a IH]; intros text H.
  - by exists "", text.
  - destruct text as [|d text]; [done|].
    rewrite append_cons in H. simpl in H. injection H as Hc H.
    destruct (IH text H) as (ta & tb & -> & Ha & Hb).
    exists (String d ta), tb. split_and!; [done| |done]. simpl. by rewrite Hc, Ha.
Qed.

(** Lower-casing a character keeps the letter. *)
Lemma same_letter_lower (c : Ascii.ascii) : same_letter c (lower_ascii c) = true.
Proof. by destruct c as [[] [] [] [] [] [] [] []]. Qed.

(** The same letter in either case has one lower case. *)
Lemma lower_same_letter (c d : Ascii.ascii) :
  same_letter c d = true → lower_ascii c = lower_ascii d.
Proof.
  unfold same_letter. intros [H|H]%orb_true_iff.
  - by apply Ascii.eqb_eq in H as ->.
  - apply existsb_exists in H as ([l u] & Hin & H).
    apply orb_true_iff in H as [H|H];
      apply andb_true_iff in H as [->%Ascii.eqb_eq ->%Ascii.eqb_eq];
      simpl in Hin;
      repeat (destruct Hin as [[= <- <-]|Hin]; [reflexivity|]);
      destruct Hin.
Qed.

Lemma same_ignoring_case_lower (a : string) : same_ignoring_case a (lower a) = true.
Proof.
  induction a as [|c a IH]; [done|]. simpl. by rewrite same_letter_lower, IH.
Qed.

Lemma lower_same_ignoring_case (a b : string) :
  same_ignoring_case a b = true → lower a = lower b.
Proof.
  revert b. induction a as [|c a IH]; intros [|d b] H; try done.
  simpl in H. apply andb_true_iff in H as [Hc H].
  simpl. by rewrite (lower_same_letter c d Hc), (IH b H).
Qed.

(** The test of the script, [words in text.lower()] for lower-case [words],
    finds [words] in [text] whatever the case of its letters there. *)
Lemma contains_lower_says (text words : string) :
  lower words = words →
  contains words (lower text) = true ↔ says text words.
Proof.
  intros Hwords. split.
  - intros (a & b & Hc)%contains_spec.
    apply lower_split in Hc as (ta & tb & -> & _ & Hc).
    apply lower_split in Hc as (tw & tc & -> & Hw & _).
    exists ta, tw, tc. split; [done|]. rewrite <- Hw.
    apply same_ignoring_case_lower.
  - intros (before & found & after & -> & Hsame).
    apply lower_same_ignoring_case in Hsame. rewrite Hwords in Hsame.
    rewrite !lower_app, Hsame. apply contains_inside.
Qed.

(** ** Facts about runs *)

Section run_facts.
Context {A B : Type}.

Lemma prints_app (es es' : list event) :
  prints (es ++ es') = prints es ++ prints es'.
Proof.
  induction es as [|[line|c] es IH]; simpl; [done | by f_equal | done].
Qed.

Lemma calls_of_app (es es' : list event) :
  calls_of (es ++ es') = calls_of es ++ calls_of es'.
Proof.
  induction es as [|[line|c] es IH]; simpl; [done | done | by f_equal].
Qed.

Lemma bind_next (es : list event) (a : A) (f : A → Run B) :
  (es, Next a) ≫= f = after es (f a).
Proof. unfold mbind, run_bind, after. by destruct (f a). Qed.

Lemma bind_returned (es : list event) (f : A → Run B) :
  (es, Returned) ≫= f = (es, Returned).
Proof. done. Qed.

Lemma bind_thrown (es : list event) (e : exn) (f : A → Run B) :
  (es, Thrown e) ≫= f = (es, Thrown e).
Proof. done. Qed.

Lemma after_after (es es' : list event) (r : Run A) :
  after es (after es' r) = after (es ++ es') r.
Proof. unfold after; simpl. by rewrite app_assoc. Qed.

Lemma log_after (es : list event) (r : Run A) :
  fst (after es r) = es ++ fst r.
Proof. done. Qed.

Lemma stdout_after (es : list event) (r : Run A) :
  stdout (after es r) = prints es ++ stdout r.
Proof. apply prints_app. Qed.

Lemma calls_after (es : list event) (r : Run A) :
  calls (after es r) = calls_of es ++ calls r.
Proof. apply calls_of_app. Qed.

Lemma outcome_after (es : list event) (r : Run A) :
  outcome (after es r) = outcome r.
Proof. done. Qed.

End run_facts.

Section step_facts.
Context (w : WorkspaceClient) (api_id warehouse catalog schema : string).

Let request := registry_request api_id warehouse catalog schema.
Let step1_header := Printed "📊 Step 1: Checking API registry...".

Lemma step1_raises (text : string) :
  execute_statement w request = Raises text →
  step1 w api_id warehouse catalog schema =
    ([step1_header; Call (ExecuteStatement request);
      Printed ("❌ Error querying registry: " +:+ text)], Returned).
Proof. subst request. intros H. unfold step1. cbv zeta. by rewrite H. Qed.

Lemma step1_no_rows (response : StatementResponse) :
  execute_statement w request = Ok response →
  first_row response = None →
  step1 w api_id warehouse catalog schema =
    ([step1_header; Call (ExecuteStatement request);
      Printed ("❌ API with id '" +:+ api_id +:+ "' not found in registry!");
      Printed ("   Table: " +:+ table_name_of catalog schema)], Returned).
Proof.
  subst request. intros H Hrow. unfold step1. cbv zeta. rewrite H. simpl.
  by rewrite Hrow.
Qed.

Lemma step1_found (api_data : gmap string pyval) :
  registry_found w api_id warehouse catalog schema api_data →
  ∃ log,
    step1 w api_id warehouse catalog schema =
      (step1_header :: Call (ExecuteStatement request) :: log, Next api_data) ∧
    calls_of log = [].
Proof.
  subst request. intros (response & row & columns & H & Hrow & Hcols & Hdict).
  unfold step1. cbv zeta. rewrite H. simpl.
  rewrite Hrow, Hcols. simpl. rewrite Hdict. simpl. eauto.
Qed.

End step_facts.

Section step2_facts.
Context (w : WorkspaceClient) (full_connection_name : string).

Let step2_header := Printed (nl +:+ "🔌 Step 2: Checking UC HTTP Connection...").

Lemma step2_raises (text : string) :
  connections_get w full_connection_name = Raises text →
  step2 w full_connection_name =
    ([step2_header; Call (ConnectionsGet full_connection_name);
      Printed ("❌ Connection not found or error: " +:+ text);
      Printed ("   Expected name: " +:+ full_connection_name)], Returned).
Proof. intros H. unfold step2. by rewrite H. Qed.

Lemma step2_found (conn : ConnectionInfo) :
  connections_get w full_connection_name = Ok conn →
  ∃ log,
    step2 w full_connection_name =
      (step2_header :: Call (ConnectionsGet full_connection_name) :: log,
       Next (bearer_token_of conn)) ∧
    calls_of log = [].
Proof.
  intros H. unfold step2, bearer_token_of. rewrite H. simpl.
  destruct (dict_truthy (options conn)); simpl; [|eauto].
  destruct (String.eqb _ ""); simpl; [eauto|].
  destruct (contains "secret(" _); simpl; eauto.
Qed.

(** A non-empty options mapping without a [bearer_token] key. *)
Lemma step2_not_set (conn : ConnectionInfo) (opts : gmap string string) :
  connections_get w full_connection_name = Ok conn →
  options conn = Some opts → opts ≠ ∅ → opts !! "bearer_token" = None →
  step2 w full_connection_name =
    ([step2_header; Call (ConnectionsGet full_connection_name);
      Printed ("✅ Connection exists: " +:+ full_connection_name);
      Printed ("   Host: " +:+ fmt_opt (opts !! "host"));
      Printed ("   Base Path: " +:+ fmt_opt (opts !! "base_path"));
      Printed ("   Owner: " +:+ fmt (owner conn));
      Printed "   Bearer Token: NOT_SET"],
     Next (Some "NOT_SET")).
Proof.
  intros H Hopts Hne Hbt. unfold step2. rewrite H. simpl.
  rewrite Hopts. simpl. rewrite bool_decide_eq_false_2 by done. simpl.
  by rewrite Hbt.
Qed.

End step2_facts.

Section step3_facts.
Context (w : WorkspaceClient) (secret_scope auth_type : pyval).

Let step3_header := Printed (nl +:+ "🔐 Step 3: Checking secret scope...").
Let expected_key :=
  if eq_lit auth_type "bearer_token" then "bearer_token" else "api_key".

Lemma step3_skipped :
  secrets_needed secret_scope auth_type = false →
  step3 w secret_scope auth_type =
    ([Printed (nl +:+ "🔐 Step 3: Secret scope not needed (auth_type=" +:+
               fmt auth_type +:+ ")")], Next tt).
Proof. intros H. unfold step3. by rewrite H. Qed.

Lemma step3_listed (secret_keys : list string) :
  secrets_needed secret_scope auth_type = true →
  list_secrets w (fmt secret_scope) = Ok secret_keys →
  step3 w secret_scope auth_type =
    ([step3_header; Call (ListSecrets (fmt secret_scope));
      Printed ("✅ Secret scope exists: " +:+ fmt secret_scope);
      Printed ("   Number of secrets: " +:+ pretty (length secret_keys))] ++
     (if bool_decide (expected_key ∈ secret_keys) then
        [Printed ("   ✅ Expected secret key '" +:+ expected_key +:+ "' found")]
      else
        [Printed ("   ❌ Expected secret key '" +:+ expected_key +:+ "' NOT FOUND");
         Printed ("   Available keys: " +:+ repr_list secret_keys)]),
     Next tt).
Proof.
  subst expected_key. intros Hgate H. unfold step3. rewrite Hgate, H. simpl.
  by destruct (bool_decide _).
Qed.

Lemma step3_raises (text : string) :
  secrets_needed secret_scope auth_type = true →
  list_secrets w (fmt secret_scope) = Raises text →
  step3 w secret_scope auth_type =
    ([step3_header; Call (ListSecrets (fmt secret_scope));
      Printed ("❌ Error accessing secret scope: " +:+ text)] ++
     (if contains "does not exist" (lower text) then
        [Printed ("   The secret scope '" +:+ fmt secret_scope +:+ "' doesn't exist!");
         Printed ("   Create it with: databricks secrets create-scope " +:+
                  fmt secret_scope)]
      else []),
     Next tt).
Proof.
  intros Hgate H. unfold step3. rewrite Hgate, H. simpl.
  by destruct (contains _ _).
Qed.

(** Step 3 never ends the run, whatever the secret store answers. *)
Lemma step3_next : snd (step3 w secret_scope auth_type) = Next tt.
Proof.
  destruct (secrets_needed secret_scope auth_type) eqn:Hgate.
  - destruct (list_secrets w (fmt secret_scope)) as [keys|text] eqn:H.
    + by rewrite (step3_listed keys).
    + by rewrite (step3_raises text).
  - by rewrite step3_skipped.
Qed.

Lemma step3_then {B} (k : Run B) :
  (step3 w secret_scope auth_type ;; k) =
  after (fst (step3 w secret_scope auth_type)) k.
Proof.
  pose proof step3_next as H.
  destruct (step3 w secret_scope auth_type) as [log [[]| |]]; try done.
  apply (bind_next log tt (λ _, k)).
Qed.

End step3_facts.

Lemma step5_then {B} full_connection_name api_data auth_type secret_scope (k : Run B) :
  (step5 full_connection_name api_data auth_type secret_scope ;; k) =
  after (fst (step5 full_connection_name api_data auth_type secret_scope)) k.
Proof.
  unfold step5. destruct (test_sql _ _ _ _); apply (bind_next _ tt (λ _, k)).
Qed.

(** A run that gets past Step 2 is the log of Steps 1 and 2, with their two
    calls, then Steps 3 to 6 in turn; how it ends is how the summary ends. *)
Lemma debug_api_from_step3 w api_id warehouse catalog schema api_data conn :
  reaches_step3 w api_id warehouse catalog schema api_data conn →
  let auth_type := get api_data "auth_type" in
  let secret_scope := get api_data "secret_scope" in
  let full_connection_name :=
    full_connection_name_of catalog schema (get api_data "connection_name") in
  ∃ pre,
    calls_of pre =
      [ExecuteStatement (registry_request api_id warehouse catalog schema);
       ConnectionsGet full_connection_name] ∧
    debug_api w api_id warehouse catalog schema =
      after (pre ++ fst (step3 w secret_scope auth_type) ++ fst step4 ++
             fst (step5 full_connection_name api_data auth_type secret_scope))
        (summary auth_type (bearer_token_of conn)).
Proof.
  intros [Hfound Hconn]; simpl.
  destruct (step1_found _ _ _ _ _ _ Hfound) as (log1 & E1 & Hc1).
  destruct (step2_found _ _ _ Hconn) as (log2 & E2 & Hc2).
  exists (fst banner ++
          fst (step1 w api_id warehouse catalog schema) ++
          fst (step2 w (full_connection_name_of catalog schema
                          (get api_data "connection_name")))).
  split; last first.
  - unfold debug_api. rewrite E1. unfold banner, print. simpl.
    rewrite E2. simpl. rewrite step3_then.
    change (step4 ;; ?k) with (after (fst step4) k).
    rewrite step5_then.
    unfold after. destruct (summary _ _) as [es r]. simpl. f_equal.
    by rewrite <- !app_assoc.
  - rewrite E1, E2. simpl. rewrite !calls_of_app. simpl.
    by rewrite Hc1, Hc2.
Qed.

(** ** The run from its first step *)

Lemma bind_log_prefix {A B} (m : Run A) (f : A → Run B) :
  ∃ rest, fst (m ≫= f) = fst m ++ rest.
Proof.
  destruct m as [es [a| |e]]; simpl.
  - destruct (f a) as [es' r]. by exists es'.
  - exists []. by rewrite app_nil_r.
  - exists []. by rewrite app_nil_r.
Qed.

Lemma try_except_log_prefix {A} (body : Run A) (handler : exn → Run A) :
  ∃ rest, fst (try_except body handler) = fst body ++ rest.
Proof.
  destruct body as [es [a| |e]]; simpl; try (exists []; by rewrite app_nil_r).
  destruct (handler e) as [es' r]. by exists es'.
Qed.

Lemma print_then_log {B} (line : string) (k : Run B) :
  fst (print line ;; k) = Printed line :: fst k.
Proof. unfold print. simpl. by destruct k. Qed.

Lemma sdk_log {A} (c : call) (r : result A) : fst (sdk c r) = [Call c].
Proof. by destruct r. Qed.

(** Step 1 always announces itself and then sends the registry request. *)
Lemma step1_starts w api_id warehouse catalog schema :
  ∃ rest,
    fst (step1 w api_id warehouse catalog schema) =
      [Printed "📊 Step 1: Checking API registry...";
       Call (ExecuteStatement (registry_request api_id warehouse catalog schema))] ++ rest.
Proof.
  unfold step1. cbv zeta. rewrite print_then_log.
  match goal with
  | |- context [try_except ?body ?handler] =>
      destruct (try_except_log_prefix body handler) as [rest1 ->]
  end.
  match goal with
  | |- context [sdk ?c ?r ≫= ?f] =>
      destruct (bind_log_prefix (sdk c r) f) as [rest0 ->]
  end.
  rewrite sdk_log. by exists (rest0 ++ rest1).
Qed.

Lemma banner_then {B} (k : Run B) : (banner ;; k) = after (fst banner) k.
Proof. apply (bind_next (fst banner) tt (λ _, k)). Qed.

Lemma debug_api_starts w api_id warehouse catalog schema :
  ∃ rest,
    fst (debug_api w api_id warehouse catalog schema) =
      fst banner ++
      [Printed "📊 Step 1: Checking API registry...";
       Call (ExecuteStatement (registry_request api_id warehouse catalog schema))] ++ rest.
Proof.
  unfold debug_api. rewrite banner_then.
  match goal with
  | |- context [step1 ?w ?a ?b ?c ?d ≫= ?f] =>
      destruct (bind_log_prefix (step1 w a b c d) f) as [rest E];
      destruct (step1_starts w a b c d) as [rest1 E1]
  end.
  rewrite log_after, E, E1.
  exists (rest1 ++ rest). by rewrite <- !app_assoc.
Qed.

Lemma positional_count (argv : list string) :
  length (positional argv) = 4 ↔ length argv = 5.
Proof. destruct argv; simpl; lia. Qed.

(** ** The properties of the specification *)



Lemma zero_rows_first_row (response : StatementResponse) :
  zero_rows response → first_row response = None.
Proof.
  unfold zero_rows, first_row. destruct (result_ response) as [data|]; [|done].
  by intros [-> | ->].
Qed.

(** C1, at a failing input.  The connection of an [api_key] API comes back
    without an options mapping, or with an empty one: Step 2 leaves
    [bearer_token] unassigned, the summary reads it, and the
    [UnboundLocalError] leaves [debug_api]; the process exits with
    status 1. *)
Theorem absent_options_escape :
  let absent := Sample.workspace (PStr "api_key") PNone None (Ok []) in
  let empty := Sample.workspace (PStr "api_key") PNone (Some ∅) (Ok []) in
  length (positional Sample.argv) = 4 ∧
  outcome (debug_api absent "abc-123" "wh-1" "main" "default") =
    Thrown (UnboundLocalError "bearer_token") ∧
  snd (main absent Sample.argv) = 1 ∧
  outcome (debug_api empty "abc-123" "wh-1" "main" "default") =
    Thrown (UnboundLocalError "bearer_token") ∧
  snd (main empty Sample.argv) = 1.
Proof. vm_compute. done. Qed.

(** C2, as stated, fails: in the request the run sends for the entry
    [abc-123], the entry id is not handed over as a statement parameter (no
    parameter is), it is part of the statement text.  And since it is written
    there as it is, the [WHERE] clause does not compare [api_id] with the
    entry id for every id: for the id [' OR '1'='1] it reads
    [api_id = '' OR '1'='1']. *)
Lemma entry_id_not_a_parameter :
  let request := registry_request "abc-123" "wh-1" "main" "default" in
  calls (debug_api Sample.empty_registry "abc-123" "wh-1" "main" "default") =
    [ExecuteStatement request] ∧
  parameters request = [] ∧
  contains "WHERE api_id = 'abc-123'" (statement request) = true ∧
  ¬ supplied_as_parameter request "abc-123" ∧
  statement (registry_request "' OR '1'='1" "wh-1" "main" "default") =
    select_text registry_columns "main.default.api_http_registry"
      "api_id = '' OR '1'='1'".
Proof.
  cbv zeta. split_and!; try reflexivity.
  intros [Hin _]. simpl in Hin. by apply elem_of_nil in Hin.
Qed.

(** C2, amended.  The first request of every run is the registry lookup.  Its
    statement is, in full, the [SELECT] of the ten registry columns [FROM]
    [<catalog>.<schema>.api_http_registry] with the one [WHERE] condition
    [api_id = '<entry id>'], the entry id written as it is between the two
    single quotes of the statement text; no statement parameters are passed;
    it runs on the caller's warehouse with a wait of 30 seconds. *)
Theorem registry_lookup_request (w : WorkspaceClient)
    (api_id warehouse catalog schema : string) :
  let request := registry_request api_id warehouse catalog schema in
  (∃ rest, calls (debug_api w api_id warehouse catalog schema) =
             ExecuteStatement request :: rest) ∧
  warehouse_id request = warehouse ∧
  wait_timeout request = "30s" ∧
  parameters request = [] ∧
  String.prefix (nl +:+ "        SELECT ") (statement request) = true ∧
  contains ("        FROM " +:+ catalog +:+ "." +:+ schema +:+ ".api_http_registry" +:+ nl)
    (statement request) = true ∧
  contains ("        WHERE api_id = '" +:+ api_id +:+ "'" +:+ nl)
    (statement request) = true ∧
  statement request =
    select_text
      ["api_id"; "api_name"; "connection_name"; "host"; "base_path"; "api_path";
       "auth_type"; "secret_scope"; "http_method"; "status"]
      (catalog +:+ "." +:+ schema +:+ ".api_http_registry")
      ("api_id = '" +:+ api_id +:+ "'").
Proof.
  cbv zeta. split_and!; try done.
  - destruct (debug_api_starts w api_id warehouse catalog schema) as [rest E].
    unfold calls. rewrite E, calls_of_app. simpl. eauto.
  - unfold registry_request, statement, registry_query, table_name_of. find_text.
  - unfold registry_request, statement, registry_query. find_text.
  - unfold registry_request, statement, registry_query, table_name_of, select_text.
    cbn [column_lines]. by rewrite !append_assoc.
Qed.

(** A run that Step 1 ends is the banner and the log of Step 1. *)
Lemma debug_api_step1_ends w api_id warehouse catalog schema log :
  step1 w api_id warehouse catalog schema = (log, Returned) →
  debug_api w api_id warehouse catalog schema = (fst banner ++ log, Returned).
Proof. intros E. unfold debug_api. by rewrite banner_then, E. Qed.

(** A run whose connection lookup raises ends there. *)
Lemma debug_api_step2_raises w api_id warehouse catalog schema api_data text :
  registry_found w api_id warehouse catalog schema api_data →
  let full_connection_name :=
    full_connection_name_of catalog schema (get api_data "connection_name") in
  connections_get w full_connection_name = Raises text →
  debug_api w api_id warehouse catalog schema =
    (fst banner ++ fst (step1 w api_id warehouse catalog schema) ++
     [Printed (nl +:+ "🔌 Step 2: Checking UC HTTP Connection...");
      Call (ConnectionsGet full_connection_name);
      Printed ("❌ Connection not found or error: " +:+ text);
      Printed ("   Expected name: " +:+ full_connection_name)],
     Returned).
Proof.
  intros Hfound full_connection_name Hconn.
  destruct (step1_found _ _ _ _ _ _ Hfound) as (log1 & E1 & _).
  unfold debug_api. rewrite banner_then, E1, bind_next.
  fold full_connection_name. by rewrite (step2_raises _ _ text Hconn).
Qed.

(** C6. If the registry query comes back with zero rows, the run prints that
    the API was not found, with the table name, and ends: its whole log is
    the banner and these lines of Step 1.  If the connection lookup of Step 2
    raises, the run prints the error and the expected name
    [<catalog>.<schema>.<connection_name>] and ends: nothing follows these two
    lines. *)
Theorem lookup_failures_end_the_run (w : WorkspaceClient)
    (api_id warehouse catalog schema : string) :
  let request := registry_request api_id warehouse catalog schema in
  (∀ response,
     execute_statement w request = Ok response → zero_rows response →
     let not_found := "❌ API with id '" +:+ api_id +:+ "' not found in registry!" in
     contains "not found" not_found = true ∧
     debug_api w api_id warehouse catalog schema =
       (fst banner ++
        [Printed "📊 Step 1: Checking API registry...";
         Call (ExecuteStatement request);
         Printed not_found;
         Printed ("   Table: " +:+ catalog +:+ "." +:+ schema +:+ ".api_http_registry")],
        Returned)) ∧
  (∀ api_data text,
     registry_found w api_id warehouse catalog schema api_data →
     let expected_name :=
       catalog +:+ "." +:+ schema +:+ "." +:+ fmt (get api_data "connection_name") in
     connections_get w expected_name = Raises text →
     debug_api w api_id warehouse catalog schema =
       (fst banner ++ fst (step1 w api_id warehouse catalog schema) ++
        [Printed (nl +:+ "🔌 Step 2: Checking UC HTTP Connection...");
         Call (ConnectionsGet expected_name);
         Printed ("❌ Connection not found or error: " +:+ text);
         Printed ("   Expected name: " +:+ expected_name)],
        Returned)).
Proof.
  cbv zeta. split.
  - intros response H Hzero. split; [find_text|].
    apply debug_api_step1_ends, (step1_no_rows _ _ _ _ _ response H).
    by apply zero_rows_first_row.
  - intros api_data text Hfound Hconn.
    by apply (debug_api_step2_raises _ _ _ _ _ api_data text).
Qed.

Lemma lookup_failures_witness :
  stdout (debug_api Sample.empty_registry "abc-123" "wh-1" "main" "default") =
    [nl +:+ rule; "🔍 API Authentication Debugger"; rule +:+ nl;
     "📊 Step 1: Checking API registry...";
     "❌ API with id 'abc-123' not found in registry!";
     "   Table: main.default.api_http_registry"] ∧
  ∃ before,
    stdout (debug_api Sample.no_connection "abc-123" "wh-1" "main" "default") =
      before ++
      [nl +:+ "🔌 Step 2: Checking UC HTTP Connection...";
       "❌ Connection not found or error: Connection 'main.default.weather_conn' does not exist.";
       "   Expected name: main.default.weather_conn"].
Proof.
  pose proof (lookup_failures_end_the_run Sample.empty_registry
                "abc-123" "wh-1" "main" "default") as [Hrows _].
  pose proof (lookup_failures_end_the_run Sample.no_connection
                "abc-123" "wh-1" "main" "default") as [_ Hconn].
  split.
  - destruct (Hrows (Sample.response [])) as [_ ->].
    + reflexivity.
    + simpl. by right.
    + reflexivity.
  - rewrite (Hconn (Sample.api_data (PStr "api_key") (PStr "scope1"))
               "Connection 'main.default.weather_conn' does not exist.").
    + unfold stdout. cbn [fst]. rewrite !prints_app. eexists (_ ++ _).
      rewrite <- app_assoc. reflexivity.
    + exists (Sample.response [Sample.row (PStr "api_key") (PStr "scope1")]),
        (Sample.row (PStr "api_key") (PStr "scope1")), Sample.columns.
      split_and!; reflexivity.
    + reflexivity.
Defined.

(** Steps 5 and 6 announce themselves first. *)
Lemma step5_starts full_connection_name api_data auth_type secret_scope :
  ∃ rest,
    fst (step5 full_connection_name api_data auth_type secret_scope) =
      [Printed (nl +:+ "📝 Step 5: Generated test SQL:"); Printed (nl +:+ "```sql")] ++ rest.
Proof. unfold step5. rewrite !print_then_log. eauto. Qed.

Lemma summary_starts auth_type bearer_token :
  ∃ rest,
    fst (summary auth_type bearer_token) =
      [Printed rule; Printed "📋 Summary"; Printed rule] ++ rest.
Proof. unfold summary. rewrite !print_then_log. eauto. Qed.

Lemma step4_log :
  fst step4 =
    [Printed (nl +:+ "🧪 Step 4: Testing connection...");
     Printed "   (Skipping - would require serving endpoints API)"].
Proof. reflexivity. Qed.

(** Discharges [reaches_step3] on a sample workspace by running Steps 1
    and 2 on it. *)
Ltac sample_run :=
  split;
  [ eexists _, _, _; split_and!;
    reflexivity
  | reflexivity ].

(** C5. When the secret listing of Step 3 raises, the run prints the error
    text, followed by the two lines of scope-creation guidance exactly when
    the error text says "does not exist" in any mix of upper and lower case
    (which is what the test on the lower-cased text decides), and then goes
    on with Steps 4, 5 and 6, each of which announces itself.  When the
    statement execution of Step 1 or the connection lookup of Step 2 raises,
    the error line (for Step 2, with the expected name) is the last thing the
    run does and [debug_api] returns. *)
Theorem secret_listing_failure_goes_on (w : WorkspaceClient)
    (api_id warehouse catalog schema : string) :
  (∀ api_data conn text,
     let auth_type := get api_data "auth_type" in
     let secret_scope := get api_data "secret_scope" in
     let full_connection_name :=
       full_connection_name_of catalog schema (get api_data "connection_name") in
     reaches_step3 w api_id warehouse catalog schema api_data conn →
     secrets_needed secret_scope auth_type = true →
     list_secrets w (fmt secret_scope) = Raises text →
     (∃ pre,
        fst (debug_api w api_id warehouse catalog schema) =
          pre ++
          [Printed (nl +:+ "🔐 Step 3: Checking secret scope...");
           Call (ListSecrets (fmt secret_scope));
           Printed ("❌ Error accessing secret scope: " +:+ text)] ++
          (if contains "does not exist" (lower text) then
             [Printed ("   The secret scope '" +:+ fmt secret_scope +:+ "' doesn't exist!");
              Printed ("   Create it with: databricks secrets create-scope " +:+
                       fmt secret_scope)]
           else []) ++
          fst step4 ++
          fst (step5 full_connection_name api_data auth_type secret_scope) ++
          fst (summary auth_type (bearer_token_of conn))) ∧
     fst step4 =
       [Printed (nl +:+ "🧪 Step 4: Testing connection...");
        Printed "   (Skipping - would require serving endpoints API)"] ∧
     (∃ rest,
        fst (step5 full_connection_name api_data auth_type secret_scope) =
          [Printed (nl +:+ "📝 Step 5: Generated test SQL:");
           Printed (nl +:+ "```sql")] ++ rest) ∧
     (∃ rest,
        fst (summary auth_type (bearer_token_of conn)) =
          [Printed rule; Printed "📋 Summary"; Printed rule] ++ rest) ∧
     (contains "does not exist" (lower text) = true ↔ says text "does not exist")) ∧
  (∀ text,
     execute_statement w (registry_request api_id warehouse catalog schema) =
       Raises text →
     debug_api w api_id warehouse catalog schema =
       (fst banner ++
        [Printed "📊 Step 1: Checking API registry...";
         Call (ExecuteStatement (registry_request api_id warehouse catalog schema));
         Printed ("❌ Error querying registry: " +:+ text)],
        Returned)) ∧
  (∀ api_data text,
     let full_connection_name :=
       full_connection_name_of catalog schema (get api_data "connection_name") in
     registry_found w api_id warehouse catalog schema api_data →
     connections_get w full_connection_name = Raises text →
     debug_api w api_id warehouse catalog schema =
       (fst banner ++ fst (step1 w api_id warehouse catalog schema) ++
        [Printed (nl +:+ "🔌 Step 2: Checking UC HTTP Connection...");
         Call (ConnectionsGet full_connection_name);
         Printed ("❌ Connection not found or error: " +:+ text);
         Printed ("   Expected name: " +:+ full_connection_name)],
        Returned)).
Proof.
  split_and!.
  - intros api_data conn text auth_type secret_scope full_connection_name
      Hrun Hgate Hlist.
    split_and!;
      [|apply step4_log|apply step5_starts|apply summary_starts
       |by apply contains_lower_says].
    destruct (debug_api_from_step3 _ _ _ _ _ _ _ Hrun) as (pre & _ & ->).
    exists pre. rewrite log_after.
    fold auth_type secret_scope full_connection_name.
    rewrite (step3_raises _ _ _ text Hgate Hlist). cbn [fst].
    by rewrite <- !app_assoc.
  - intros text H. apply debug_api_step1_ends, step1_raises, H.
  - intros api_data text full_connection_name Hfound Hconn.
    by apply (debug_api_step2_raises _ _ _ _ _ api_data text).
Qed.

Lemma secret_listing_failure_witness :
  (∃ pre,
     fst (debug_api
            (Sample.workspace (PStr "api_key") (PStr "scope1") (Some Sample.host_only)
               (Raises "Scope scope1 Does NOT Exist!"))
            "abc-123" "wh-1" "main" "default") =
       pre ++
       [Printed (nl +:+ "🔐 Step 3: Checking secret scope...");
        Call (ListSecrets "scope1");
        Printed "❌ Error accessing secret scope: Scope scope1 Does NOT Exist!";
        Printed "   The secret scope 'scope1' doesn't exist!";
        Printed "   Create it with: databricks secrets create-scope scope1"] ++
       fst step4 ++
       fst (step5 "main.default.weather_conn"
              (Sample.api_data (PStr "api_key") (PStr "scope1"))
              (PStr "api_key") (PStr "scope1")) ++
       fst (summary (PStr "api_key") (Some "NOT_SET"))) ∧
  debug_api Sample.broken_warehouse "abc-123" "wh-1" "main" "default" =
    (fst banner ++
     [Printed "📊 Step 1: Checking API registry...";
      Call (ExecuteStatement (registry_request "abc-123" "wh-1" "main" "default"));
      Printed "❌ Error querying registry: warehouse is stopped"],
     Returned).
Proof.
  split.
  - destruct (secret_listing_failure_goes_on
                (Sample.workspace (PStr "api_key") (PStr "scope1")
                   (Some Sample.host_only) (Raises "Scope scope1 Does NOT Exist!"))
                "abc-123" "wh-1" "main" "default") as [H _].
    destruct (H (Sample.api_data (PStr "api_key") (PStr "scope1"))
                (Sample.connection (Some Sample.host_only))
                "Scope scope1 Does NOT Exist!") as [[pre E] _].
    + sample_run.
    + reflexivity.
    + reflexivity.
    + exists pre. exact E.
  - destruct (secret_listing_failure_goes_on Sample.broken_warehouse
                "abc-123" "wh-1" "main" "default") as (_ & H & _).
    apply H. reflexivity.
Defined.

(** Steps 4, 5 and 6 only print. *)
Lemma step5_no_calls full_connection_name api_data auth_type secret_scope :
  calls_of (fst (step5 full_connection_name api_data auth_type secret_scope)) = [].
Proof. unfold step5. by destruct (test_sql _ _ _ _). Qed.

Lemma for_each_print (f : string → string) (l : list string) :
  for_each l (λ x, print (f x)) = (Printed <$> (f <$> l), Next tt).
Proof.
  induction l as [|x l IH]; [done|].
  change (for_each (x :: l) (λ x, print (f x)))
    with (print (f x) ;; for_each l (λ x, print (f x))).
  by rewrite IH.
Qed.

Lemma calls_of_printed (lines : list string) : calls_of (Printed <$> lines) = [].
Proof. by induction lines. Qed.

Lemma prints_printed (lines : list string) : prints (Printed <$> lines) = lines.
Proof. induction lines as [|x l IH]; [done|]. rewrite fmap_cons. simpl. by f_equal. Qed.

(** What the verdict prints. *)
Lemma report_log issues :
  report issues =
    (Printed <$>
       match issues with
       | [] => [nl +:+ "✅ Configuration looks correct!"]
       | _ :: _ => (nl +:+ "⚠️  Potential Issues Found:") ::
                   ((λ issue, "   - " +:+ issue) <$> issues)
       end,
     Next tt).
Proof.
  destruct issues as [|issue issues]; [done|].
  unfold report. by rewrite (for_each_print (λ issue, "   - " +:+ issue)).
Qed.

Lemma report_no_calls issues : calls_of (fst (report issues)) = [].
Proof. rewrite report_log. apply calls_of_printed. Qed.

Lemma report_next issues : snd (report issues) = Next tt.
Proof. by rewrite report_log. Qed.

Lemma check_configuration_no_calls auth_type bearer_token :
  calls_of (fst (check_configuration auth_type bearer_token)) = [].
Proof.
  unfold check_configuration.
  destruct (eq_lit auth_type "api_key"), (eq_lit auth_type "bearer_token"),
    (eq_lit auth_type "none"), bearer_token as [bt|]; simpl; try done;
    try (by destruct (String.eqb bt "")); by destruct (contains "secret(" bt).
Qed.

Lemma summary_no_calls auth_type bearer_token :
  calls_of (fst (summary auth_type bearer_token)) = [].
Proof.
  unfold summary. rewrite !print_then_log. simpl.
  pose proof (check_configuration_no_calls auth_type bearer_token) as Hc.
  destruct (check_configuration auth_type bearer_token) as [es [issues| |e]];
    simpl in *; try done.
  pose proof (report_no_calls issues) as Hr.
  pose proof (report_next issues) as Hn.
  destruct (report issues) as [es' [[]| |]]; simpl in *; try done.
  by rewrite !calls_of_app, Hc, Hr.
Qed.

Lemma secrets_needed_spec (secret_scope auth_type : pyval) :
  secrets_needed secret_scope auth_type = true ↔
  is_set secret_scope ∧ (auth_type = PStr "api_key" ∨ auth_type = PStr "bearer_token").
Proof.
  unfold secrets_needed, is_set, in_lits. split.
  - intros H. apply andb_true_iff in H as [Hs Ha]. split.
    + destruct secret_scope as [|s]; [done|]. exists s. split; [done|].
      simpl in Hs. by apply negb_true_iff, String.eqb_neq in Hs.
    + destruct auth_type as [|a]; [done|]. simpl in Ha.
      rewrite orb_false_r in Ha.
      apply orb_true_iff in Ha as [Ha|Ha]; apply String.eqb_eq in Ha; subst; auto.
  - intros [(s & -> & Hs) Ha]. apply andb_true_iff. split.
    + simpl. by apply negb_true_iff, String.eqb_neq.
    + by destruct Ha as [-> | ->].
Qed.

(** C7. In a run that gets past Step 2, the secret store is asked exactly when
    [secret_scope] is set and [auth_type] is [api_key] or [bearer_token]: then
    Step 3 announces itself and lists the scope, and the run makes no other
    call than this one and the two of Steps 1 and 2.  When the listing comes
    back, the key looked for is [bearer_token] for [bearer_token] auth and
    [api_key] otherwise; if it is not among the listed keys, the run prints a
    NOT FOUND line for it and then the list of the keys that are there, each
    of them quoted in that line.  When the condition is false nothing is
    asked, and the run prints that the secret scope is not needed, with the
    current [auth_type]. *)
Theorem secret_check_gate (w : WorkspaceClient)
    (api_id warehouse catalog schema : string)
    (api_data : gmap string pyval) (conn : ConnectionInfo) :
  let auth_type := get api_data "auth_type" in
  let secret_scope := get api_data "secret_scope" in
  reaches_step3 w api_id warehouse catalog schema api_data conn →
  (∃ pre post,
     fst (debug_api w api_id warehouse catalog schema) =
       pre ++ fst (step3 w secret_scope auth_type) ++ post ∧
     calls_of pre =
       [ExecuteStatement (registry_request api_id warehouse catalog schema);
        ConnectionsGet
          (full_connection_name_of catalog schema (get api_data "connection_name"))] ∧
     calls_of post = []) ∧
  (is_set secret_scope ∧
   (auth_type = PStr "api_key" ∨ auth_type = PStr "bearer_token") →
   (∃ rest,
      fst (step3 w secret_scope auth_type) =
        [Printed (nl +:+ "🔐 Step 3: Checking secret scope...");
         Call (ListSecrets (fmt secret_scope))] ++ rest ∧
      calls_of rest = []) ∧
   ∀ secret_keys,
     list_secrets w (fmt secret_scope) = Ok secret_keys →
     ∃ expected_key,
       (auth_type = PStr "bearer_token" ∧ expected_key = "bearer_token" ∨
        auth_type ≠ PStr "bearer_token" ∧ expected_key = "api_key") ∧
       (expected_key ∉ secret_keys →
        let available := "   Available keys: " +:+ repr_list secret_keys in
        fst (step3 w secret_scope auth_type) =
          [Printed (nl +:+ "🔐 Step 3: Checking secret scope...");
           Call (ListSecrets (fmt secret_scope));
           Printed ("✅ Secret scope exists: " +:+ fmt secret_scope);
           Printed ("   Number of secrets: " +:+ pretty (length secret_keys));
           Printed ("   ❌ Expected secret key '" +:+ expected_key +:+ "' NOT FOUND");
           Printed available] ∧
        ∀ key, key ∈ secret_keys → contains (repr_str key) available = true) ∧
       (expected_key ∈ secret_keys →
        fst (step3 w secret_scope auth_type) =
          [Printed (nl +:+ "🔐 Step 3: Checking secret scope...");
           Call (ListSecrets (fmt secret_scope));
           Printed ("✅ Secret scope exists: " +:+ fmt secret_scope);
           Printed ("   Number of secrets: " +:+ pretty (length secret_keys));
           Printed ("   ✅ Expected secret key '" +:+ expected_key +:+ "' found")])) ∧
  (¬ (is_set secret_scope ∧
      (auth_type = PStr "api_key" ∨ auth_type = PStr "bearer_token")) →
   fst (step3 w secret_scope auth_type) =
     [Printed (nl +:+ "🔐 Step 3: Secret scope not needed (auth_type=" +:+
               fmt auth_type +:+ ")")]).
Proof.
  intros auth_type secret_scope Hrun. split_and!.
  - destruct (debug_api_from_step3 _ _ _ _ _ _ _ Hrun) as (pre & Hpre & ->).
    fold auth_type secret_scope. eexists pre, _. split_and!; [|done|].
    + rewrite log_after, <- !app_assoc. reflexivity.
    + by rewrite !calls_of_app, step5_no_calls, summary_no_calls.
  - intros Hgate%secrets_needed_spec. split.
    + destruct (list_secrets w (fmt secret_scope)) as [keys|text] eqn:Hlist.
      * rewrite (step3_listed _ _ _ keys Hgate Hlist). cbn [fst].
        eexists. split; [reflexivity|]. by destruct (bool_decide _).
      * rewrite (step3_raises _ _ _ text Hgate Hlist). cbn [fst].
        eexists. split; [reflexivity|]. by destruct (contains _ _).
    + intros secret_keys Hlist.
      rewrite (step3_listed _ _ _ secret_keys Hgate Hlist). cbn [fst].
      exists (if eq_lit auth_type "bearer_token" then "bearer_token" else "api_key").
      split_and!.
      * destruct auth_type as [|a]; simpl; [by right|].
        destruct (String.eqb_spec a "bearer_token") as [->|Hne]; [by left|].
        right. split; [congruence|done].
      * intros Hnot. rewrite bool_decide_eq_false_2 by done. split; [done|].
        intros key Hkey. apply contains_skip. by apply repr_list_shows.
      * intros Hin. by rewrite bool_decide_eq_true_2.
  - intros Hgate. rewrite step3_skipped; [done|].
    destruct (secrets_needed secret_scope auth_type) eqn:E; [|done].
    by apply secrets_needed_spec in E.
Qed.

Lemma secret_check_gate_witness :
  fst (step3 (Sample.workspace (PStr "api_key") (PStr "scope1")
                (Some Sample.host_only) (Ok ["token"; "other"]))
         (PStr "scope1") (PStr "api_key")) =
    [Printed (nl +:+ "🔐 Step 3: Checking secret scope...");
     Call (ListSecrets "scope1");
     Printed "✅ Secret scope exists: scope1";
     Printed "   Number of secrets: 2";
     Printed "   ❌ Expected secret key 'api_key' NOT FOUND";
     Printed "   Available keys: ['token', 'other']"].
Proof.
  pose proof (secret_check_gate
                (Sample.workspace (PStr "api_key") (PStr "scope1")
                   (Some Sample.host_only) (Ok ["token"; "other"]))
                "abc-123" "wh-1" "main" "default"
                (Sample.api_data (PStr "api_key") (PStr "scope1"))
                (Sample.connection (Some Sample.host_only))) as H.
  destruct H as (_ & Hrun & _); [sample_run|].
  destruct Hrun as [_ Hkeys].
  - split; [by exists "scope1" | by left].
  - destruct (Hkeys ["token"; "other"]) as (key & Hkey & Hmissing & _);
      [reflexivity|].
    destruct Hkey as [[Habs _] | [_ ->]]; [discriminate Habs|].
    destruct Hmissing as [E _]; [|exact E].
    intros Hin. by repeat (apply elem_of_cons in Hin as [Hin|Hin]; [discriminate Hin|]);
      apply elem_of_nil in Hin.
Defined.

(** ** The generated statement *)

Lemma sql_none_parts full_connection_name http_method api_path :
  sql_none full_connection_name http_method api_path =
    sql_head full_connection_name http_method api_path +:+ sql_headers.
Proof. unfold sql_none, sql_head, sql_headers. by rewrite !append_assoc. Qed.

Lemma sql_api_key_parts full_connection_name http_method api_path secret_scope :
  sql_api_key full_connection_name http_method api_path secret_scope =
    sql_head full_connection_name http_method api_path +:+
    params_api_key secret_scope +:+ sql_headers.
Proof.
  unfold sql_api_key, sql_head, params_api_key, sql_headers.
  by rewrite !append_assoc.
Qed.

Lemma sql_bearer_token_parts full_connection_name http_method api_path :
  sql_bearer_token full_connection_name http_method api_path =
    sql_head full_connection_name http_method api_path +:+
    params_bearer_token +:+ sql_headers.
Proof.
  unfold sql_bearer_token, sql_head, params_bearer_token, sql_headers.
  by rewrite !append_assoc.
Qed.

(** A run that gets past Step 2 prints the statement Step 5 chose. *)
Lemma debug_api_prints_test_sql w api_id warehouse catalog schema api_data conn sql :
  reaches_step3 w api_id warehouse catalog schema api_data conn →
  test_sql (full_connection_name_of catalog schema (get api_data "connection_name"))
    api_data (get api_data "auth_type") (get api_data "secret_scope") = Some sql →
  prints_test_sql (debug_api w api_id warehouse catalog schema) sql.
Proof.
  intros Hrun Hsql.
  destruct (debug_api_from_step3 _ _ _ _ _ _ _ Hrun) as (pre & _ & ->).
  unfold prints_test_sql. rewrite stdout_after, !prints_app.
  unfold step5 at 1. rewrite Hsql. cbn [fst].
  match goal with
  | |- ∃ before rest, (?a ++ ?b ++ ?c ++ _) ++ ?e = _ => exists (a ++ b ++ c), e
  end.
  by rewrite <- !app_assoc.
Qed.

(** C3. In a run that gets past Step 2, Step 5 prints, between the code
    fences, a statement made of the head (connection, method and path, the
    latter two taken from the registry row), an optional [params] clause and
    the [headers] clause.  For [api_key] the [params] clause holds
    [secret('<scope>', 'api_key')]; for [bearer_token] it holds no
    [secret(] at all; for [none] there is no [params] clause: the
    [headers] clause follows the path directly. *)
Theorem test_sql_shape (w : WorkspaceClient)
    (api_id warehouse catalog schema : string)
    (api_data : gmap string pyval) (conn : ConnectionInfo) :
  let auth_type := get api_data "auth_type" in
  let secret_scope := get api_data "secret_scope" in
  let full_connection_name :=
    full_connection_name_of catalog schema (get api_data "connection_name") in
  let http_method := fmt (get api_data "http_method") in
  let api_path := fmt (get api_data "api_path") in
  let head := sql_head full_connection_name http_method api_path in
  reaches_step3 w api_id warehouse catalog schema api_data conn →
  (auth_type = PStr "api_key" →
   prints_test_sql (debug_api w api_id warehouse catalog schema)
     (head +:+ params_api_key (fmt secret_scope) +:+ sql_headers)) ∧
  (auth_type = PStr "bearer_token" →
   prints_test_sql (debug_api w api_id warehouse catalog schema)
     (head +:+ params_bearer_token +:+ sql_headers)) ∧
  (auth_type = PStr "none" →
   prints_test_sql (debug_api w api_id warehouse catalog schema)
     (head +:+ sql_headers)) ∧
  String.prefix "  params => map(" (params_api_key (fmt secret_scope)) = true ∧
  contains ("secret('" +:+ fmt secret_scope +:+ "', 'api_key')")
    (params_api_key (fmt secret_scope)) = true ∧
  String.prefix "  params => map(" params_bearer_token = true ∧
  contains "secret(" params_bearer_token = false ∧
  contains "headers => map('Accept', 'application/json')" sql_headers = true ∧
  contains "params" sql_headers = false ∧
  contains ("  method => '" +:+ http_method +:+ "',") head = true ∧
  contains ("  path => '" +:+ api_path +:+ "',") head = true.
Proof.
  intros auth_type secret_scope full_connection_name http_method api_path head Hrun.
  split_and!; try reflexivity.
  - intros Hauth. apply (debug_api_prints_test_sql _ _ _ _ _ api_data conn); [done|].
    fold auth_type secret_scope full_connection_name. rewrite Hauth.
    unfold test_sql. cbn [eq_lit String.eqb]. simpl.
    by rewrite sql_api_key_parts.
  - intros Hauth. apply (debug_api_prints_test_sql _ _ _ _ _ api_data conn); [done|].
    fold auth_type secret_scope full_connection_name. rewrite Hauth.
    unfold test_sql. simpl. by rewrite sql_bearer_token_parts.
  - intros Hauth. apply (debug_api_prints_test_sql _ _ _ _ _ api_data conn); [done|].
    fold auth_type secret_scope full_connection_name. rewrite Hauth.
    unfold test_sql. simpl. by rewrite sql_none_parts.
  - apply contains_spec.
    exists ("  params => map(" +:+ nl +:+ "    'api_key', "),
      ("," +:+ nl +:+ "    -- Add your parameters here" +:+ nl +:+
       "    'param1', 'value1'" +:+ nl +:+ "  )," +:+ nl).
    unfold params_api_key. by rewrite !append_assoc.
  - subst head. unfold sql_head. find_text.
  - subst head. unfold sql_head. find_text.
Qed.

Lemma test_sql_shape_witness :
  prints_test_sql
    (debug_api
       (Sample.workspace (PStr "api_key") (PStr "scope1") (Some Sample.host_only)
          (Ok ["api_key"]))
       "abc-123" "wh-1" "main" "default")
    (sql_head "main.default.weather_conn" "GET" "/v1/forecast" +:+
     params_api_key "scope1" +:+ sql_headers).
Proof.
  apply (test_sql_shape
           (Sample.workspace (PStr "api_key") (PStr "scope1") (Some Sample.host_only)
              (Ok ["api_key"]))
           "abc-123" "wh-1" "main" "default"
           (Sample.api_data (PStr "api_key") (PStr "scope1"))
           (Sample.connection (Some Sample.host_only))).
  - sample_run.
  - reflexivity.
Defined.

(** ** The summary *)

(** With [bearer_token] assigned, the check of the configuration goes through
    and leaves an issue exactly when the value does not have the shape
    expected for the [auth_type]. *)
Lemma check_configuration_bound (auth_type : pyval) (bearer_token : string) :
  ∃ shape issues,
    check_configuration auth_type (Some bearer_token) = (Printed <$> shape, Next issues) ∧
    (issues ≠ [] ↔ violates_expected_shape auth_type bearer_token) ∧
    (auth_type = PStr "api_key" → bearer_token ≠ "" →
     issues = ["Connection has non-empty bearer_token for api_key auth"]) ∧
    (auth_type = PStr "bearer_token" → contains "secret(" bearer_token = false →
     issues = ["Connection doesn't reference secret for bearer_token auth"]) ∧
    (auth_type = PStr "none" → bearer_token ≠ "" →
     issues =
       ["Connection has non-empty bearer_token for public API (should be empty string)"]).
Proof.
  unfold check_configuration, violates_expected_shape.
  destruct auth_type as [|a]; simpl.
  { exists [], []. split_and!; try done. intuition congruence. }
  destruct (String.eqb_spec a "api_key") as [->|Hk].
  { destruct (String.eqb_spec bearer_token "") as [->|Hne]; simpl;
      eexists [_; _; _; _], _; (split; [reflexivity|]); split_and!;
      try done; intuition congruence. }
  destruct (String.eqb_spec a "bearer_token") as [->|Hb].
  { destruct (contains "secret(" bearer_token) eqn:Hc; simpl;
      eexists [_; _; _; _], _; (split; [reflexivity|]); split_and!;
      try done; intuition congruence. }
  destruct (String.eqb_spec a "none") as [->|Hn].
  { destruct (String.eqb_spec bearer_token "") as [->|Hne]; simpl;
      eexists [_; _; _], _; (split; [reflexivity|]); split_and!;
      try done; intuition congruence. }
  exists [], []. split_and!; try done; intuition congruence.
Qed.

(** The summary once the check of the configuration has gone through. *)
Lemma summary_checked auth_type bearer_token shape issues :
  check_configuration auth_type bearer_token = (Printed <$> shape, Next issues) →
  summary auth_type bearer_token =
    (Printed <$> ([rule; "📋 Summary"; rule] ++ shape ++ verdict issues ++
                  [nl +:+ rule +:+ nl]),
     Next tt).
Proof.
  intros E. unfold summary. rewrite E. unfold print. cbn -[report rule nl].
  rewrite report_log. cbn -[rule nl].
  f_equal. f_equal. f_equal. f_equal. rewrite !fmap_app. by destruct issues.
Qed.

(** C4. In a run that gets to the summary with [bearer_token] assigned (the
    connection has a non-empty options mapping), the check of the
    configuration leaves an issue exactly when the observed value violates
    the shape expected for the [auth_type]: a non-empty value for [api_key]
    and for [none], a value without a secret reference for [bearer_token];
    the empty value under [bearer_token] gives the missing-secret-reference
    issue, and under [none] it gives none.  The run then prints the heading
    and the issues when there are some and the confirmation otherwise, and
    ends with the closing rule. *)
Theorem summary_issues (w : WorkspaceClient)
    (api_id warehouse catalog schema : string)
    (api_data : gmap string pyval) (conn : ConnectionInfo)
    (opts : gmap string string) :
  let auth_type := get api_data "auth_type" in
  let bearer_token := default "NOT_SET" (opts !! "bearer_token") in
  reaches_step3 w api_id warehouse catalog schema api_data conn →
  options conn = Some opts → opts ≠ ∅ →
  ∃ shape issues,
    check_configuration auth_type (Some bearer_token) =
      (Printed <$> shape, Next issues) ∧
    (issues ≠ [] ↔ violates_expected_shape auth_type bearer_token) ∧
    (auth_type = PStr "bearer_token" → bearer_token = "" →
     issues = ["Connection doesn't reference secret for bearer_token auth"]) ∧
    (auth_type = PStr "none" → bearer_token = "" → issues = []) ∧
    (∃ before,
       stdout (debug_api w api_id warehouse catalog schema) =
         before ++ verdict issues ++ [nl +:+ rule +:+ nl]) ∧
    (issues = [] → verdict issues = [nl +:+ "✅ Configuration looks correct!"]) ∧
    (issues ≠ [] →
     verdict issues =
       (nl +:+ "⚠️  Potential Issues Found:") ::
       ((λ issue, "   - " +:+ issue) <$> issues)) ∧
    outcome (debug_api w api_id warehouse catalog schema) = Next tt.
Proof.
  intros auth_type bearer_token Hrun Hopts Hne.
  destruct (check_configuration_bound auth_type bearer_token)
    as (shape & issues & E & Hiff & _ & Hbearer & _).
  exists shape, issues.
  assert (bearer_token_of conn = Some bearer_token) as Hbt.
  { unfold bearer_token_of. rewrite Hopts. simpl.
    by rewrite bool_decide_eq_false_2. }
  destruct (debug_api_from_step3 _ _ _ _ _ _ _ Hrun) as (pre & _ & Hlog).
  fold auth_type in Hlog. rewrite Hbt, (summary_checked _ _ shape issues E) in Hlog.
  split_and!; try done.
  - intros Ha ->. by apply Hbearer.
  - intros Ha Hb. destruct issues as [|issue issues]; [done|].
    assert (violates_expected_shape auth_type bearer_token) as Hv by by apply Hiff.
    unfold violates_expected_shape in Hv. rewrite Ha, Hb in Hv.
    destruct Hv as [[? _]|[[? _]|[_ ?]]]; done.
  - rewrite Hlog, stdout_after. unfold stdout. cbn [fst].
    rewrite prints_printed.
    eexists (prints _ ++ [rule; "📋 Summary"; rule] ++ shape).
    by rewrite <- !app_assoc.
  - by intros ->.
  - by destruct issues.
  - by rewrite Hlog.
Qed.

Lemma summary_issues_witness :
  ∃ before,
    stdout (debug_api
              (Sample.workspace (PStr "bearer_token") (PStr "scope1")
                 (Some {[ "bearer_token" := "" ]}) (Ok ["bearer_token"]))
              "abc-123" "wh-1" "main" "default") =
      before ++
      [nl +:+ "⚠️  Potential Issues Found:";
       "   - Connection doesn't reference secret for bearer_token auth";
       nl +:+ rule +:+ nl].
Proof.
  destruct (summary_issues
              (Sample.workspace (PStr "bearer_token") (PStr "scope1")
                 (Some {[ "bearer_token" := "" ]}) (Ok ["bearer_token"]))
              "abc-123" "wh-1" "main" "default"
              (Sample.api_data (PStr "bearer_token") (PStr "scope1"))
              (Sample.connection (Some {[ "bearer_token" := "" ]}))
              {[ "bearer_token" := "" ]})
    as (shape & issues & _ & _ & Hissue & _ & [before E] & _).
  - sample_run.
  - reflexivity.
  - intros H. discriminate (f_equal (λ m : gmap string string, m !! "bearer_token") H).
  - rewrite Hissue in E by reflexivity. by exists before.
Defined.

(** C9. In a run that gets past Step 2 with an [auth_type] other than
    [none], [api_key] and [bearer_token], Step 5 prints its two code fences
    with no statement between them, the summary prints no expected shape and
    finds no issue, whatever the connection's options are, and the run ends
    on the confirmation that the configuration looks correct. *)
Theorem unknown_auth_type (w : WorkspaceClient)
    (api_id warehouse catalog schema : string)
    (api_data : gmap string pyval) (conn : ConnectionInfo) :
  let auth_type := get api_data "auth_type" in
  let secret_scope := get api_data "secret_scope" in
  let full_connection_name :=
    full_connection_name_of catalog schema (get api_data "connection_name") in
  reaches_step3 w api_id warehouse catalog schema api_data conn →
  auth_type ≠ PStr "none" → auth_type ≠ PStr "api_key" →
  auth_type ≠ PStr "bearer_token" →
  test_sql full_connection_name api_data auth_type secret_scope = None ∧
  check_configuration auth_type (bearer_token_of conn) = ([], Next []) ∧
  (∃ before,
     stdout (debug_api w api_id warehouse catalog schema) =
       before ++
       [nl +:+ "🧪 Step 4: Testing connection...";
        "   (Skipping - would require serving endpoints API)";
        nl +:+ "📝 Step 5: Generated test SQL:";
        nl +:+ "```sql";
        "```" +:+ nl;
        rule; "📋 Summary"; rule;
        nl +:+ "✅ Configuration looks correct!";
        nl +:+ rule +:+ nl]) ∧
  outcome (debug_api w api_id warehouse catalog schema) = Next tt.
Proof.
  intros auth_type secret_scope full_connection_name Hrun Hn Hk Hb.
  assert (∀ lit, auth_type ≠ PStr lit → eq_lit auth_type lit = false) as Hlit.
  { intros lit H. destruct auth_type as [|a]; [done|]. simpl.
    apply String.eqb_neq. congruence. }
  assert (test_sql full_connection_name api_data auth_type secret_scope = None)
    as Hsql.
  { unfold test_sql. by rewrite !Hlit. }
  assert (check_configuration auth_type (bearer_token_of conn) = (Printed <$> [], Next []))
    as Hcheck.
  { unfold check_configuration. by rewrite !Hlit. }
  destruct (debug_api_from_step3 _ _ _ _ _ _ _ Hrun) as (pre & _ & Hlog).
  fold auth_type secret_scope full_connection_name in Hlog.
  rewrite (summary_checked _ _ [] [] Hcheck) in Hlog.
  unfold step5 in Hlog. rewrite Hsql in Hlog.
  split_and!; [done | done | | by rewrite Hlog].
  rewrite Hlog, stdout_after. unfold stdout. cbn [fst].
  rewrite prints_printed, !prints_app.
  eexists (prints pre ++ prints _). by rewrite <- !app_assoc.
Qed.

Lemma unknown_auth_type_witness :
  outcome (debug_api
             (Sample.workspace (PStr "oauth2") (PStr "scope1")
                (Some Sample.host_only) (Ok []))
             "abc-123" "wh-1" "main" "default") = Next tt.
Proof.
  apply (unknown_auth_type
           (Sample.workspace (PStr "oauth2") (PStr "scope1")
                (Some Sample.host_only) (Ok []))
           "abc-123" "wh-1" "main" "default"
           (Sample.api_data (PStr "oauth2") (PStr "scope1"))
           (Sample.connection (Some Sample.host_only))).
  - sample_run.
  - discriminate.
  - discriminate.
  - discriminate.
Defined.

(** C10, as stated, fails on an options mapping that is present and empty:
    it has no [bearer_token] key, yet Step 2 treats it like an absent
    mapping, prints no bearer-token line and leaves [bearer_token]
    unassigned, so that no issue is accumulated: the summary raises. *)
Lemma empty_options_not_classified :
  let w := Sample.workspace (PStr "none") PNone (Some ∅) (Ok []) in
  let run := debug_api w "abc-123" "wh-1" "main" "default" in
  options (Sample.connection (Some ∅)) = Some ∅ ∧
  (∅ : gmap string string) !! "bearer_token" = None ∧
  bearer_token_of (Sample.connection (Some ∅)) = None ∧
  ("   Bearer Token: NOT_SET" ∉ stdout run) ∧
  ((nl +:+ "⚠️  Potential Issues Found:") ∉ stdout run) ∧
  outcome run = Thrown (UnboundLocalError "bearer_token").
Proof.
  cbv zeta. split_and!; try reflexivity.
  - apply (bool_decide_eq_false_1 (_ ∈ _)). vm_compute. reflexivity.
  - apply (bool_decide_eq_false_1 (_ ∈ _)). vm_compute. reflexivity.
Qed.

(** C10, amended.  When the connection's options mapping is non-empty and has
    no [bearer_token] key, the value classified is the text [NOT_SET]: Step 2
    prints it as it is, after the owner, and the summary counts it as
    non-empty and as holding no secret reference, so that each of the three
    auth types [none], [api_key] and [bearer_token] gets its issue, printed
    under the issues heading. *)
Theorem missing_bearer_token_key (w : WorkspaceClient)
    (api_id warehouse catalog schema : string)
    (api_data : gmap string pyval) (conn : ConnectionInfo)
    (opts : gmap string string) :
  let auth_type := get api_data "auth_type" in
  let full_connection_name :=
    full_connection_name_of catalog schema (get api_data "connection_name") in
  reaches_step3 w api_id warehouse catalog schema api_data conn →
  options conn = Some opts → opts ≠ ∅ → opts !! "bearer_token" = None →
  bearer_token_of conn = Some "NOT_SET" ∧
  (∃ before,
     step2 w full_connection_name =
       (before ++
        [Printed ("   Owner: " +:+ fmt (owner conn));
         Printed "   Bearer Token: NOT_SET"],
        Next (Some "NOT_SET"))) ∧
  (∃ before rest,
     stdout (debug_api w api_id warehouse catalog schema) =
       before ++ ["   Bearer Token: NOT_SET"] ++ rest) ∧
  (auth_type = PStr "none" ∨ auth_type = PStr "api_key" ∨
   auth_type = PStr "bearer_token" →
   ∃ shape issue,
     check_configuration auth_type (Some "NOT_SET") =
       (Printed <$> shape, Next [issue]) ∧
     (auth_type = PStr "none" →
      issue =
        "Connection has non-empty bearer_token for public API (should be empty string)") ∧
     (auth_type = PStr "api_key" →
      issue = "Connection has non-empty bearer_token for api_key auth") ∧
     (auth_type = PStr "bearer_token" →
      issue = "Connection doesn't reference secret for bearer_token auth") ∧
     (∃ before,
        stdout (debug_api w api_id warehouse catalog schema) =
          before ++
          [nl +:+ "⚠️  Potential Issues Found:"; "   - " +:+ issue;
           nl +:+ rule +:+ nl]) ∧
     outcome (debug_api w api_id warehouse catalog schema) = Next tt).
Proof.
  intros auth_type full_connection_name [Hfound Hconn] Hopts Hne Hkey.
  pose proof (step2_not_set _ _ _ _ Hconn Hopts Hne Hkey) as E2.
  fold full_connection_name in E2.
  assert (bearer_token_of conn = Some "NOT_SET") as Hbt.
  { unfold bearer_token_of. rewrite Hopts. simpl.
    by rewrite bool_decide_eq_false_2, Hkey. }
  destruct (debug_api_from_step3 _ _ _ _ _ _ _ (conj Hfound Hconn))
    as (pre & _ & Hlog).
  fold auth_type full_connection_name in Hlog. rewrite Hbt in Hlog.
  split_and!; [done | | |].
  - rewrite E2. by eexists [_; _; _; _; _].
  - destruct (step1_found _ _ _ _ _ _ Hfound) as (log1 & E1 & _).
    unfold debug_api. rewrite banner_then, E1, bind_next.
    fold full_connection_name. rewrite E2, bind_next, !stdout_after.
    cbn [prints].
    eexists (prints (fst banner) ++ _ :: prints log1 ++ [_; _; _; _; _]), _.
    rewrite <- !app_assoc. cbn [app]. rewrite <- !app_assoc. reflexivity.
  - intros Hauth.
    destruct (check_configuration_bound auth_type "NOT_SET")
      as (shape & issues & E & _ & Hk & Hb & Hn).
    assert (∃ issue, issues = [issue]) as [issue ->].
    { destruct Hauth as [Ha|[Ha|Ha]].
      - rewrite Hn by done. eauto.
      - rewrite Hk by done. eauto.
      - rewrite Hb by done. eauto. }
    rewrite (summary_checked _ _ shape [issue] E) in Hlog.
    exists shape, issue. split_and!; try done.
    + intros Ha. specialize (Hn Ha). by injection Hn; [|done].
    + intros Ha. specialize (Hk Ha). by injection Hk; [|done].
    + intros Ha. specialize (Hb Ha eq_refl). by injection Hb.
    + rewrite Hlog, stdout_after. unfold stdout. cbn [fst].
      rewrite prints_printed.
      eexists (prints _ ++ [rule; "📋 Summary"; rule] ++ shape).
      by rewrite <- !app_assoc.
    + by rewrite Hlog.
Qed.

Lemma missing_bearer_token_key_witness :
  ∃ before,
    stdout (debug_api
              (Sample.workspace (PStr "none") PNone (Some Sample.host_only) (Ok []))
              "abc-123" "wh-1" "main" "default") =
      before ++
      [nl +:+ "⚠️  Potential Issues Found:";
       "   - Connection has non-empty bearer_token for public API (should be empty string)";
       nl +:+ rule +:+ nl].
Proof.
  destruct (missing_bearer_token_key
              (Sample.workspace (PStr "none") PNone (Some Sample.host_only) (Ok []))
              "abc-123" "wh-1" "main" "default"
              (Sample.api_data (PStr "none") PNone)
              (Sample.connection (Some Sample.host_only))
              Sample.host_only) as (_ & _ & _ & H).
  - sample_run.
  - reflexivity.
  - intros H. discriminate (f_equal (λ m : gmap string string, m !! "host") H).
  - reflexivity.
  - destruct H as (shape & issue & _ & Hissue & _ & _ & [before E] & _);
      [by left|].
    rewrite Hissue in E by reflexivity. by exists before.
Defined.

(** ** Decoding the registry row *)

Section dict_of_row_facts.
Context (columns : list string) (row : list pyval).

Let step (acc : result (gmap string pyval)) (i : nat) : result (gmap string pyval) :=
  match acc with
  | Raises text => Raises text
  | Ok d =>
      match columns !! i, row !! i with
      | Some c, Some v => Ok (<[c := v]> d)
      | _, _ => Raises "list index out of range"
      end
  end.

Lemma decode_raised (text : string) (indices : list nat) :
  foldl step (Raises text) indices = Raises text.
Proof. by induction indices. Qed.

(** Over indices that both lists have, the decoding goes through, and each
    key holds the cell of the last column of that name. *)
Lemma decode_in_range (n k : nat) (d : gmap string pyval) :
  k + n ≤ length columns → k + n ≤ length row →
  ∃ d',
    foldl step (Ok d) (seq k n) = Ok d' ∧
    (∀ c, (∀ i, k ≤ i < k + n → columns !! i ≠ Some c) → d' !! c = d !! c) ∧
    (∀ c i v,
       k ≤ i < k + n → columns !! i = Some c → row !! i = Some v →
       (∀ j, i < j < k + n → columns !! j ≠ Some c) → d' !! c = Some v).
Proof.
  induction n as [|n IH]; intros Hc Hr.
  { exists d. split_and!; [done|done|]. intros c i v Hi. lia. }
  destruct IH as (d' & E & Hout & Hin); [lia|lia|].
  destruct (lookup_lt_is_Some_2 columns (k + n)) as [c Hcol]; [lia|].
  destruct (lookup_lt_is_Some_2 row (k + n)) as [v Hrow]; [lia|].
  exists (<[c := v]> d'). split_and!.
  - rewrite seq_S, foldl_app, E. simpl. by rewrite Hcol, Hrow.
  - intros c' Hnone.
    rewrite lookup_insert_ne by (intros ->; apply (Hnone (k + n)); [lia|done]).
    apply Hout. intros i Hi. apply Hnone. lia.
  - intros c' i v' Hi Hcol' Hrow' Hlast.
    destruct (decide (i = k + n)) as [->|Hne].
    + rewrite Hcol in Hcol'. rewrite Hrow in Hrow'.
      injection Hcol' as ->. injection Hrow' as ->. apply lookup_insert_eq.
    + rewrite lookup_insert_ne by (intros ->; apply (Hlast (k + n)); [lia|done]).
      apply (Hin c' i v'); [lia|done|done|]. intros j Hj. apply Hlast. lia.
Qed.

Lemma dict_of_row_enough :
  length columns ≤ length row → ∃ d, dict_of_row columns row = Ok d.
Proof.
  intros H.
  destruct (decode_in_range (length columns) 0 ∅) as (d & E & _); [lia|lia|].
  by exists d.
Qed.

Lemma dict_of_row_short :
  length row < length columns →
  dict_of_row columns row = Raises "list index out of range".
Proof.
  intros H. unfold dict_of_row.
  replace (length columns)
    with (length row + S (length columns - length row - 1)) by lia.
  rewrite seq_app, foldl_app.
  destruct (decode_in_range (length row) 0 ∅) as (d & E & _); [lia|lia|].
  fold step. rewrite E. simpl.
  destruct (lookup_lt_is_Some_2 columns (length row)) as [c ->]; [lia|].
  rewrite (lookup_ge_None_2 row (length row)) by lia.
  apply decode_raised.
Qed.

Lemma dict_of_row_missing (d : gmap string pyval) (c : string) :
  dict_of_row columns row = Ok d → c ∉ columns → d !! c = None.
Proof.
  intros E Hc.
  assert (length columns ≤ length row) as Hlen.
  { destruct (decide (length columns ≤ length row)) as [|Hlt]; [done|].
    rewrite dict_of_row_short in E by lia. discriminate. }
  destruct (decode_in_range (length columns) 0 ∅) as (d' & E' & Hout & _);
    [lia|lia|].
  unfold dict_of_row in E. fold step in E. rewrite E' in E. injection E as ->.
  rewrite Hout; [done|].
  intros i _ Hi. apply Hc. by apply list_elem_of_lookup_2 in Hi.
Qed.

(** X1. The row decodes exactly when it has a cell for every column; a
    shorter row raises [IndexError]. *)
Theorem dict_of_row_length :
  (length columns ≤ length row → ∃ d, dict_of_row columns row = Ok d) ∧
  (length row < length columns →
   dict_of_row columns row = Raises "list index out of range").
Proof. split; [apply dict_of_row_enough | apply dict_of_row_short]. Qed.

(** X2. In the decoded dictionary a column name holds the cell at the last
    position where that name occurs among the columns; a name that is not a
    column is missing, so that [get] gives [None] for it, and cells beyond the
    last column are dropped. *)
Theorem dict_of_row_lookup (d : gmap string pyval) :
  dict_of_row columns row = Ok d →
  (∀ c i v,
     columns !! i = Some c → row !! i = Some v →
     (∀ j, i < j → columns !! j ≠ Some c) → d !! c = Some v) ∧
  (∀ c, c ∉ columns → d !! c = None ∧ get d c = PNone) ∧
  (∀ c, is_Some (d !! c) → c ∈ columns).
Proof.
  intros E.
  assert (length columns ≤ length row) as Hlen.
  { destruct (decide (length columns ≤ length row)) as [|Hlt]; [done|].
    rewrite dict_of_row_short in E by lia. discriminate. }
  destruct (decode_in_range (length columns) 0 ∅) as (d' & E' & _ & Hin);
    [lia|lia|].
  pose proof E as E0.
  unfold dict_of_row in E. fold step in E. rewrite E' in E. injection E as ->.
  split_and!.
  - intros c i v Hcol Hrow Hlast.
    apply (Hin c i v); [|done|done|by intros j [? _]; apply Hlast].
    apply lookup_lt_Some in Hcol. lia.
  - intros c Hc. unfold get. by rewrite (dict_of_row_missing d c E0 Hc).
  - intros c [v Hv]. destruct (decide (c ∈ columns)) as [|Hc]; [done|].
    by rewrite (dict_of_row_missing d c E0 Hc) in Hv.
Qed.

End dict_of_row_facts.

Lemma dict_of_row_length_witness :
  (∃ d, dict_of_row ["api_id"; "auth_type"] [PStr "abc-123"; PStr "none"; PStr "extra"] = Ok d) ∧
  dict_of_row ["api_id"; "auth_type"] [PStr "abc-123"] = Raises "list index out of range".
Proof.
  split.
  - apply (proj1 (dict_of_row_length ["api_id"; "auth_type"]
                    [PStr "abc-123"; PStr "none"; PStr "extra"])).
    simpl. lia.
  - apply (proj2 (dict_of_row_length ["api_id"; "auth_type"] [PStr "abc-123"])).
    simpl. lia.
Defined.

Lemma dict_of_row_lookup_witness :
  (<["status" := PStr "new"]> (<["status" := PStr "old"]> ∅) : gmap string pyval)
    !! "status" = Some (PStr "new").
Proof.
  apply (proj1 (dict_of_row_lookup ["status"; "status"] [PStr "old"; PStr "new"]
                  (<["status" := PStr "new"]> (<["status" := PStr "old"]> ∅))
                  eq_refl) "status" 1 (PStr "new")).
  - reflexivity.
  - reflexivity.
  - intros j Hj H. destruct j as [|[|j]]; [lia | lia | discriminate H].
Defined.

(** ** Every way a run can go *)

Lemma step1_decode_fails w api_id warehouse catalog schema text :
  decode_fails w api_id warehouse catalog schema text →
  step1 w api_id warehouse catalog schema =
    ([Printed "📊 Step 1: Checking API registry...";
      Call (ExecuteStatement (registry_request api_id warehouse catalog schema));
      Printed ("❌ Error querying registry: " +:+ text)], Returned).
Proof.
  intros (response & row & H & Hrow & Hfail).
  unfold step1. cbv zeta. rewrite H. simpl. rewrite Hrow.
  destruct Hfail as [Hcols | (columns & Hcols & Hdict)].
  - by rewrite Hcols.
  - rewrite Hcols. simpl. by rewrite Hdict.
Qed.

(** The answers of the workspace fall under one of five cases. *)
Lemma workspace_cases w api_id warehouse catalog schema :
  let request := registry_request api_id warehouse catalog schema in
  (∃ text, execute_statement w request = Raises text) ∨
  (∃ response, execute_statement w request = Ok response ∧ first_row response = None) ∨
  (∃ text, decode_fails w api_id warehouse catalog schema text) ∨
  (∃ api_data text,
     registry_found w api_id warehouse catalog schema api_data ∧
     connections_get w
       (full_connection_name_of catalog schema (get api_data "connection_name")) =
       Raises text) ∨
  (∃ api_data conn, reaches_step3 w api_id warehouse catalog schema api_data conn).
Proof.
  intros request. unfold decode_fails, registry_found, reaches_step3.
  fold request.
  destruct (execute_statement w request) as [response|text] eqn:H; [|eauto].
  destruct (first_row response) as [row|] eqn:Hrow; [|eauto 6].
  destruct (manifest_columns response) as [columns|text] eqn:Hcols;
    [|right; right; left; eauto 10].
  destruct (dict_of_row columns row) as [api_data|text] eqn:Hdict;
    [|right; right; left; eauto 10].
  destruct (connections_get w
              (full_connection_name_of catalog schema (get api_data "connection_name")))
    as [conn|text] eqn:Hconn.
  - do 4 right. exists api_data, conn. split; [|done].
    exists response, row, columns. eauto.
  - do 3 right. left. exists api_data, text. split; [|done].
    exists response, row, columns. eauto.
Qed.

Lemma step3_calls w secret_scope auth_type :
  calls_of (fst (step3 w secret_scope auth_type)) =
    if secrets_needed secret_scope auth_type then [ListSecrets (fmt secret_scope)]
    else [].
Proof.
  destruct (secrets_needed secret_scope auth_type) eqn:Hgate.
  - destruct (list_secrets w (fmt secret_scope)) as [keys|text] eqn:H.
    + rewrite (step3_listed _ _ _ keys Hgate H). cbn [fst].
      rewrite calls_of_app. by destruct (bool_decide _).
    + rewrite (step3_raises _ _ _ text Hgate H). cbn [fst].
      rewrite calls_of_app. by destruct (contains _ _).
  - by rewrite step3_skipped.
Qed.

(** How the summary ends: the read of an unassigned [bearer_token] under one
    of the three known auth types raises, everything else goes through. *)
Lemma summary_outcome auth_type bearer_token :
  snd (summary auth_type bearer_token) =
    match bearer_token with
    | None =>
        if in_lits auth_type ["api_key"; "bearer_token"; "none"]
        then Thrown (UnboundLocalError "bearer_token") else Next tt
    | Some _ => Next tt
    end.
Proof.
  destruct bearer_token as [bt|].
  - destruct (check_configuration_bound auth_type bt) as (shape & issues & E & _).
    by rewrite (summary_checked _ _ shape issues E).
  - unfold summary, check_configuration, in_lits. simpl.
    by destruct (eq_lit auth_type "api_key"), (eq_lit auth_type "bearer_token"),
      (eq_lit auth_type "none").
Qed.

Lemma in_lits_known auth_type :
  in_lits auth_type ["api_key"; "bearer_token"; "none"] = true ↔ known_auth_type auth_type.
Proof.
  unfold in_lits, known_auth_type. simpl. rewrite orb_false_r, !orb_true_iff.
  destruct auth_type as [|a]; simpl; [intuition congruence|].
  rewrite !String.eqb_eq. intuition congruence.
Qed.

(** X3. When the first row cannot be decoded (the column names cannot be
    read, or the row is shorter than the column list) the failure is caught
    like a failure of the query itself: the run prints the error and ends,
    having sent the registry request only.  For a short row the text is that
    of the [IndexError]. *)
Theorem decode_failure_ends_the_run (w : WorkspaceClient)
    (api_id warehouse catalog schema : string) :
  let request := registry_request api_id warehouse catalog schema in
  (∀ text,
     decode_fails w api_id warehouse catalog schema text →
     debug_api w api_id warehouse catalog schema =
       (fst banner ++
        [Printed "📊 Step 1: Checking API registry...";
         Call (ExecuteStatement request);
         Printed ("❌ Error querying registry: " +:+ text)],
        Returned)) ∧
  (∀ response row columns,
     execute_statement w request = Ok response →
     first_row response = Some row →
     manifest_columns response = Ok columns →
     length row < length columns →
     debug_api w api_id warehouse catalog schema =
       (fst banner ++
        [Printed "📊 Step 1: Checking API registry...";
         Call (ExecuteStatement request);
         Printed "❌ Error querying registry: list index out of range"],
        Returned)).
Proof.
  cbv zeta. split.
  - intros text Hfail. by apply debug_api_step1_ends, step1_decode_fails.
  - intros response row columns H Hrow Hcols Hshort.
    apply debug_api_step1_ends,
      (step1_decode_fails _ _ _ _ _ "list index out of range").
    exists response, row. split_and!; [done|done|].
    right. exists columns. split; [done|]. by apply dict_of_row_short.
Qed.

Lemma decode_failure_witness :
  stdout (debug_api Sample.short_row "abc-123" "wh-1" "main" "default") =
    [nl +:+ rule; "🔍 API Authentication Debugger"; rule +:+ nl;
     "📊 Step 1: Checking API registry...";
     "❌ Error querying registry: list index out of range"].
Proof.
  rewrite (proj2 (decode_failure_ends_the_run Sample.short_row
                    "abc-123" "wh-1" "main" "default")
             (Sample.response [[PStr "abc-123"; PStr "Weather"]])
             [PStr "abc-123"; PStr "Weather"] Sample.columns).
  - reflexivity.
  - reflexivity.
  - reflexivity.
  - reflexivity.
  - simpl. lia.
Defined.

Lemma step1_found_calls w api_id warehouse catalog schema api_data :
  registry_found w api_id warehouse catalog schema api_data →
  calls_of (fst (step1 w api_id warehouse catalog schema)) =
    [ExecuteStatement (registry_request api_id warehouse catalog schema)].
Proof.
  intros Hfound. destruct (step1_found _ _ _ _ _ _ Hfound) as (log & -> & Hlog).
  simpl. by rewrite Hlog.
Qed.

(** No row is decoded when the query raises, comes back with zero rows, or
    its first row cannot be decoded. *)
Lemma no_row_decoded w api_id warehouse catalog schema :
  let request := registry_request api_id warehouse catalog schema in
  (∃ text, execute_statement w request = Raises text) ∨
  (∃ response, execute_statement w request = Ok response ∧ first_row response = None) ∨
  (∃ text, decode_fails w api_id warehouse catalog schema text) →
  ¬ ∃ api_data, registry_found w api_id warehouse catalog schema api_data.
Proof.
  intros request Hcase (d & r & row' & cols & H' & Hrow' & Hcols & Hdict).
  fold request in H'.
  destruct Hcase as [[text H] | [(response & H & Hrow) |
                     (text & response & row & H & Hrow & Hfail)]].
  - congruence.
  - rewrite H in H'. injection H' as <-. congruence.
  - fold request in H. rewrite H in H'. injection H' as <-.
    rewrite Hrow in Hrow'. injection Hrow' as <-.
    destruct Hfail as [Hfail | (cols' & Hcols' & Hfail)]; congruence.
Qed.

(** X4. A run sends at most three requests, always in this order and none
    twice.  It sends the registry query alone when no row is found and
    decoded.  Otherwise it goes on to look up the connection the row names,
    and stops there when that lookup raises or when the row's secret scope is
    not needed.  It lists the secret scope, as its third and last request,
    exactly when the lookup succeeded and the scope is needed. *)
Theorem requests_in_order (w : WorkspaceClient)
    (api_id warehouse catalog schema : string) :
  let request := ExecuteStatement (registry_request api_id warehouse catalog schema) in
  let sent := calls (debug_api w api_id warehouse catalog schema) in
  (¬ (∃ api_data, registry_found w api_id warehouse catalog schema api_data) ∧
   sent = [request]) ∨
  ∃ api_data,
    registry_found w api_id warehouse catalog schema api_data ∧
    let full_connection_name :=
      full_connection_name_of catalog schema (get api_data "connection_name") in
    let lookup := ConnectionsGet full_connection_name in
    let secret_scope := get api_data "secret_scope" in
    let needed := secrets_needed secret_scope (get api_data "auth_type") in
    ((∃ text, connections_get w full_connection_name = Raises text) ∧
     sent = [request; lookup]) ∨
    ((∃ conn, connections_get w full_connection_name = Ok conn) ∧
     needed = false ∧ sent = [request; lookup]) ∨
    ((∃ conn, connections_get w full_connection_name = Ok conn) ∧
     needed = true ∧ sent = [request; lookup; ListSecrets (fmt secret_scope)]).
Proof.
  cbv zeta.
  pose proof (no_row_decoded w api_id warehouse catalog schema) as Hnone.
  destruct (workspace_cases w api_id warehouse catalog schema)
    as [[text H] | [(response & H & Hrow) | [[text H] |
        [(api_data & text & Hfound & H) | (api_data & conn & Hrun)]]]].
  - left. split; [apply Hnone; eauto|].
    by rewrite (debug_api_step1_ends _ _ _ _ _ _ (step1_raises _ _ _ _ _ _ H)).
  - left. split; [apply Hnone; eauto|].
    by rewrite (debug_api_step1_ends _ _ _ _ _ _ (step1_no_rows _ _ _ _ _ _ H Hrow)).
  - left. split; [apply Hnone; eauto|].
    by rewrite (debug_api_step1_ends _ _ _ _ _ _ (step1_decode_fails _ _ _ _ _ _ H)).
  - right. exists api_data. split; [done|]. left. split; [eauto|].
    rewrite (debug_api_step2_raises _ _ _ _ _ api_data text Hfound H).
    unfold calls. cbn [fst]. rewrite !calls_of_app.
    by rewrite (step1_found_calls _ _ _ _ _ _ Hfound).
  - right. exists api_data. split; [apply Hrun|]. right.
    destruct (debug_api_from_step3 _ _ _ _ _ _ _ Hrun) as (pre & Hpre & ->).
    rewrite calls_after. unfold calls.
    rewrite !calls_of_app, Hpre, step3_calls, step5_no_calls, summary_no_calls.
    destruct Hrun as [_ Hconn].
    destruct (secrets_needed _ _); [right | left]; split_and!; eauto.
Qed.

Lemma registry_found_unique w api_id warehouse catalog schema api_data api_data' :
  registry_found w api_id warehouse catalog schema api_data →
  registry_found w api_id warehouse catalog schema api_data' →
  api_data = api_data'.
Proof.
  intros (r & row & cols & H1 & H2 & H3 & H4) (r' & row' & cols' & H1' & H2' & H3' & H4').
  rewrite H1 in H1'. injection H1' as <-.
  rewrite H2 in H2'. injection H2' as <-.
  rewrite H3 in H3'. injection H3' as <-.
  rewrite H4 in H4'. by injection H4'.
Qed.

(** The check of the configuration either goes through with at most one
    issue, or reads the unassigned [bearer_token] under a known auth type. *)
Lemma check_configuration_shape auth_type bearer_token :
  (∃ shape issues,
     check_configuration auth_type bearer_token = (Printed <$> shape, Next issues) ∧
     length issues ≤ 1) ∨
  (bearer_token = None ∧
   in_lits auth_type ["api_key"; "bearer_token"; "none"] = true ∧
   snd (check_configuration auth_type bearer_token) =
     Thrown (UnboundLocalError "bearer_token")).
Proof.
  unfold check_configuration, in_lits. simpl.
  destruct (eq_lit auth_type "api_key"), (eq_lit auth_type "bearer_token"),
    (eq_lit auth_type "none"), bearer_token as [bt|]; simpl;
    try (by right);
    left;
    try destruct (String.eqb bt ""); try destruct (contains "secret(" bt); simpl;
    first [ eexists [_; _; _; _], _; split; [reflexivity | simpl; lia]
          | eexists [_; _; _], _; split; [reflexivity | simpl; lia]
          | eexists [], _; split; [reflexivity | simpl; lia] ].
Qed.

(** How [debug_api] ends, for every workspace. *)
Lemma outcome_cases w api_id warehouse catalog schema :
  (outcome (debug_api w api_id warehouse catalog schema) = Returned ∧
   ¬ ∃ api_data conn, reaches_step3 w api_id warehouse catalog schema api_data conn) ∨
  ∃ api_data conn,
    reaches_step3 w api_id warehouse catalog schema api_data conn ∧
    ((dict_truthy (options conn) = false ∧
      known_auth_type (get api_data "auth_type") ∧
      outcome (debug_api w api_id warehouse catalog schema) =
        Thrown (UnboundLocalError "bearer_token")) ∨
     ((dict_truthy (options conn) = true ∨
       ¬ known_auth_type (get api_data "auth_type")) ∧
      outcome (debug_api w api_id warehouse catalog schema) = Next tt)).
Proof.
  destruct (workspace_cases w api_id warehouse catalog schema)
    as [[text H] | [(response & H & Hrow) | [(text & response & row & H & Hrow & Hfail) |
        [(api_data & text & Hfound & H) | (api_data & conn & Hrun)]]]].
  - left. split.
    + by rewrite (debug_api_step1_ends _ _ _ _ _ _ (step1_raises _ _ _ _ _ _ H)).
    + intros (d & c & (r & ? & ? & H' & _) & _). congruence.
  - left. split.
    + by rewrite (debug_api_step1_ends _ _ _ _ _ _ (step1_no_rows _ _ _ _ _ _ H Hrow)).
    + intros (d & c & (r & ? & ? & H' & Hrow' & _) & _).
      rewrite H in H'. injection H' as <-. congruence.
  - left. split.
    + assert (decode_fails w api_id warehouse catalog schema text) as Hdf
        by by exists response, row.
      by rewrite (debug_api_step1_ends _ _ _ _ _ _
                    (step1_decode_fails _ _ _ _ _ _ Hdf)).
    + intros (d & c & (r & row' & cols & H' & Hrow' & Hcols & Hdict) & _).
      rewrite H in H'. injection H' as <-.
      rewrite Hrow in Hrow'. injection Hrow' as <-.
      destruct Hfail as [Hfail | (cols' & Hcols' & Hfail)]; congruence.
  - left. split.
    + by rewrite (debug_api_step2_raises _ _ _ _ _ api_data text Hfound H).
    + intros (d & c & Hfound' & Hconn).
      rewrite <- (registry_found_unique _ _ _ _ _ _ _ Hfound Hfound') in Hconn.
      congruence.
  - right. exists api_data, conn. split; [done|].
    destruct (debug_api_from_step3 _ _ _ _ _ _ _ Hrun) as (pre & _ & ->).
    rewrite outcome_after. unfold outcome. rewrite summary_outcome.
    unfold bearer_token_of.
    destruct (dict_truthy (options conn)); [right; split; [by left|done]|].
    destruct (in_lits _ _) eqn:Hin.
    + left. split_and!; [done| |done]. by apply in_lits_known.
    + right. split; [|done]. right. intros Hk%in_lits_known. congruence.
Qed.

(** X5. [debug_api], from its first line on, ends in exactly one of four
    ways.  If building the client raises, that exception leaves it right
    after the banner, before anything is sent.  Otherwise it returns early
    when Step 1 or Step 2 does not succeed; past Step 2 it runs to its end,
    unless the connection's options are absent or empty and the auth type is
    one of [api_key], [bearer_token], [none]: then the [UnboundLocalError] of
    [bearer_token] leaves it.  No other exception ever leaves [debug_api]. *)
Theorem run_outcome (client : result WorkspaceClient)
    (api_id warehouse catalog schema : string) :
  let run := debug_api_from_start client api_id warehouse catalog schema in
  (∃ text, client = Raises text ∧ run = (fst banner, Thrown (Exception text))) ∨
  ∃ w,
    client = Ok w ∧
    run = debug_api w api_id warehouse catalog schema ∧
    ((outcome run = Returned ∧
      ¬ ∃ api_data conn, reaches_step3 w api_id warehouse catalog schema api_data conn) ∨
     ∃ api_data conn,
       reaches_step3 w api_id warehouse catalog schema api_data conn ∧
       ((dict_truthy (options conn) = false ∧
         known_auth_type (get api_data "auth_type") ∧
         outcome run = Thrown (UnboundLocalError "bearer_token")) ∨
        ((dict_truthy (options conn) = true ∨
          ¬ known_auth_type (get api_data "auth_type")) ∧
         outcome run = Next tt))).
Proof.
  destruct client as [w|text]; simpl.
  - right. exists w. split_and!; [done|done|]. apply outcome_cases.
  - left. by exists text.
Qed.

(** X6. The process exits with status 0 or 1, and with 1 exactly when the
    argument count is wrong, or building the client raises, or the run gets
    past Step 2 with absent or empty connection options under one of the
    three known auth types.  With a wrong argument count the client is not
    even built. *)
Theorem exit_status_of_main (client : result WorkspaceClient) (argv : list string) :
  let status := snd (main_from_start client argv) in
  (status = 0 ∨ status = 1) ∧
  (status = 1 ↔
   length (positional argv) ≠ 4 ∨
   (∃ text, client = Raises text) ∨
   ∃ w api_data conn,
     client = Ok w ∧
     reaches_step3 w (nth 1 argv "") (nth 2 argv "") (nth 3 argv "") (nth 4 argv "")
       api_data conn ∧
     dict_truthy (options conn) = false ∧
     known_auth_type (get api_data "auth_type")) ∧
  (length (positional argv) ≠ 4 → main_from_start client argv = (usage, 1)) ∧
  (∀ w, main_from_start (Ok w) argv = main w argv).
Proof.
  cbv zeta. rewrite positional_count. unfold main_from_start, main.
  destruct (length argv =? 5) eqn:Hlen; simpl.
  - apply Nat.eqb_eq in Hlen. split_and!; [| |done|done].
    + destruct client as [w|text]; simpl; [|by right].
      destruct (outcome_cases w (nth 1 argv "") (nth 2 argv "") (nth 3 argv "")
                  (nth 4 argv ""))
        as [[E _] | (d & c & _ & [(_ & _ & E) | (_ & E)])];
        unfold outcome in E; rewrite E; simpl; auto.
    + destruct client as [w|text]; simpl; [|split; [eauto|done]].
      destruct (outcome_cases w (nth 1 argv "") (nth 2 argv "") (nth 3 argv "")
                  (nth 4 argv ""))
        as [[E Hnot] | (d & c & Hrun & [(Ho & Hk & E) | (Hok & E)])];
        unfold outcome in E; rewrite E; simpl.
      * split; [done|].
        intros [?|[[text [=]]|(w' & d & c & [= <-] & Hrun & _)]]; [done|].
        destruct Hnot. eauto.
      * split; [|done]. intros _. right; right. exists w, d, c. eauto.
      * split; [done|].
        intros [?|[[text [=]]|(w' & d' & c' & [= <-] & Hrun' & Ho & Hk)]]; [done|].
        destruct (debug_api_from_step3 _ _ _ _ _ _ _ Hrun') as (pre & _ & E').
        rewrite E' in E. unfold after in E. cbn [snd] in E.
        rewrite summary_outcome in E. unfold bearer_token_of in E. rewrite Ho in E.
        apply in_lits_known in Hk. rewrite Hk in E. discriminate.
  - apply Nat.eqb_neq in Hlen. split_and!; [by right| |done|done].
    split; [by left|done].
Qed.

Lemma run_outcome_witness :
  debug_api_from_start (Raises "default auth: cannot configure default credentials")
    "abc-123" "wh-1" "main" "default" =
    (fst banner,
     Thrown (Exception "default auth: cannot configure default credentials")).
Proof.
  destruct (run_outcome (Raises "default auth: cannot configure default credentials")
              "abc-123" "wh-1" "main" "default")
    as [(text & [= <-] & E) | (w & [=] & _)].
  exact E.
Defined.

Lemma exit_status_of_main_witness :
  snd (main_from_start (Raises "default auth: cannot configure default credentials")
         Sample.argv) = 1.
Proof.
  apply (proj1 (proj2 (exit_status_of_main
                         (Raises "default auth: cannot configure default credentials")
                         Sample.argv))).
  right; left. eauto.
Defined.

(** X7. A run that goes to its end has printed, last of all, the verdict on
    at most one issue and the closing rule. *)
Theorem completed_run_output (w : WorkspaceClient)
    (api_id warehouse catalog schema : string) :
  outcome (debug_api w api_id warehouse catalog schema) = Next tt →
  ∃ before issues,
    stdout (debug_api w api_id warehouse catalog schema) =
      before ++ verdict issues ++ [nl +:+ rule +:+ nl] ∧
    length issues ≤ 1.
Proof.
  intros Hout.
  destruct (workspace_cases w api_id warehouse catalog schema)
    as [[text H] | [(response & H & Hrow) | [[text H] |
        [(api_data & text & Hfound & H) | (api_data & conn & Hrun)]]]].
  - by rewrite (debug_api_step1_ends _ _ _ _ _ _ (step1_raises _ _ _ _ _ _ H)) in Hout.
  - by rewrite (debug_api_step1_ends _ _ _ _ _ _ (step1_no_rows _ _ _ _ _ _ H Hrow))
      in Hout.
  - by rewrite (debug_api_step1_ends _ _ _ _ _ _ (step1_decode_fails _ _ _ _ _ _ H))
      in Hout.
  - by rewrite (debug_api_step2_raises _ _ _ _ _ api_data text Hfound H) in Hout.
  - destruct (debug_api_from_step3 _ _ _ _ _ _ _ Hrun) as (pre & _ & E).
    rewrite E in Hout |- *. rewrite outcome_after in Hout. unfold outcome in Hout.
    destruct (check_configuration_shape (get api_data "auth_type")
                (bearer_token_of conn))
      as [(shape & issues & Hcheck & Hlen) | (Hnone & Hin & _)].
    + rewrite (summary_checked _ _ shape issues Hcheck), stdout_after.
      unfold stdout. cbn [fst]. rewrite prints_printed.
      exists (prints (pre ++
                fst (step3 w (get api_data "secret_scope") (get api_data "auth_type")) ++
                fst step4 ++
                fst (step5
                       (full_connection_name_of catalog schema
                          (get api_data "connection_name"))
                       api_data (get api_data "auth_type")
                       (get api_data "secret_scope"))) ++
              [rule; "📋 Summary"; rule] ++ shape), issues.
      split; [|done]. by rewrite <- !app_assoc.
    + rewrite summary_outcome, Hnone, Hin in Hout. discriminate.
Qed.

Lemma completed_run_output_witness :
  ∃ before issues,
    stdout (debug_api
              (Sample.workspace (PStr "none") PNone (Some {[ "bearer_token" := "" ]})
                 (Ok []))
              "abc-123" "wh-1" "main" "default") =
      before ++ verdict issues ++ [nl +:+ rule +:+ nl] ∧
    length issues ≤ 1.
Proof.
  apply (completed_run_output
           (Sample.workspace (PStr "none") PNone (Some {[ "bearer_token" := "" ]})
              (Ok []))
           "abc-123" "wh-1" "main" "default").
  reflexivity.
Defined.

(** ** What Step 2 shows and what the summary makes of it *)

(** Step 2 on a connection with a non-empty options mapping. *)
Lemma step2_classified w full_connection_name conn opts :
  connections_get w full_connection_name = Ok conn →
  options conn = Some opts → opts ≠ ∅ →
  let bearer_token := default "NOT_SET" (opts !! "bearer_token") in
  step2 w full_connection_name =
    ([Printed (nl +:+ "🔌 Step 2: Checking UC HTTP Connection...");
      Call (ConnectionsGet full_connection_name);
      Printed ("✅ Connection exists: " +:+ full_connection_name);
      Printed ("   Host: " +:+ fmt_opt (opts !! "host"));
      Printed ("   Base Path: " +:+ fmt_opt (opts !! "base_path"));
      Printed ("   Owner: " +:+ fmt (owner conn))] ++
     [Printed
        (if String.eqb bearer_token "" then
           "   Bearer Token: EMPTY ✅ (correct for api_key or none auth)"
         else if contains "secret(" bearer_token then
           "   Bearer Token: SECRET REFERENCE ✅ (correct for bearer_token auth)"
         else "   Bearer Token: " +:+ bearer_token)],
     Next (Some bearer_token)).
Proof.
  intros H Hopts Hne bearer_token. unfold step2. rewrite H. simpl.
  rewrite Hopts. simpl. rewrite bool_decide_eq_false_2 by done. simpl.
  fold bearer_token. destruct (String.eqb bearer_token ""); [done|].
  by destruct (contains "secret(" bearer_token).
Qed.

(** X8. What Step 2 marks as correct is what the summary accepts.  For a
    connection with a non-empty options mapping, Step 2 ends on one line
    about [bearer_token]: EMPTY for the empty text, SECRET REFERENCE for a
    text holding [secret(], the text itself otherwise ([NOT_SET] when the key
    is missing).  The summary then finds an issue, for the empty text, exactly
    under [bearer_token] auth; for a secret reference, exactly under [api_key]
    and [none]; and for any other text, under each of the three. *)
Theorem display_agrees_with_summary (w : WorkspaceClient)
    (full_connection_name : string) (conn : ConnectionInfo)
    (opts : gmap string string) (auth_type : pyval) :
  let bearer_token := default "NOT_SET" (opts !! "bearer_token") in
  connections_get w full_connection_name = Ok conn →
  options conn = Some opts → opts ≠ ∅ →
  ∃ before line shape issues,
    step2 w full_connection_name = (before ++ [Printed line], Next (Some bearer_token)) ∧
    check_configuration auth_type (Some bearer_token) =
      (Printed <$> shape, Next issues) ∧
    (bearer_token = "" →
     line = "   Bearer Token: EMPTY ✅ (correct for api_key or none auth)" ∧
     (issues ≠ [] ↔ auth_type = PStr "bearer_token")) ∧
    (contains "secret(" bearer_token = true →
     line = "   Bearer Token: SECRET REFERENCE ✅ (correct for bearer_token auth)" ∧
     (issues ≠ [] ↔ auth_type = PStr "api_key" ∨ auth_type = PStr "none")) ∧
    (bearer_token ≠ "" → contains "secret(" bearer_token = false →
     line = "   Bearer Token: " +:+ bearer_token ∧
     (issues ≠ [] ↔ known_auth_type auth_type)).
Proof.
  intros bearer_token H Hopts Hne.
  destruct (check_configuration_bound auth_type bearer_token)
    as (shape & issues & E & Hiff & _).
  eexists _, _, shape, issues.
  split; [apply (step2_classified _ _ _ _ H Hopts Hne)|].
  split; [done|]. fold bearer_token.
  unfold violates_expected_shape, known_auth_type in *.
  split_and!.
  - intros Hbt. rewrite Hbt in *. split; [done|].
    rewrite Hiff. change (contains "secret(" "") with false. intuition congruence.
  - intros Hc.
    assert (bearer_token ≠ "") as Hbt by (intros Hbt; by rewrite Hbt in Hc).
    apply String.eqb_neq in Hbt as Hb. rewrite Hb, Hc. split; [done|].
    rewrite Hiff, Hc. intuition congruence.
  - intros Hbt Hc. apply String.eqb_neq in Hbt as Hb. rewrite Hb, Hc.
    split; [done|]. rewrite Hiff, Hc. intuition congruence.
Qed.

Lemma display_agrees_with_summary_witness :
  ∃ before shape issues,
    step2 (Sample.workspace (PStr "api_key") (PStr "scope1")
             (Some {[ "bearer_token" := "{{secret(scope1, token)}}" ]}) (Ok []))
      "main.default.weather_conn" =
      (before ++
       [Printed "   Bearer Token: SECRET REFERENCE ✅ (correct for bearer_token auth)"],
       Next (Some "{{secret(scope1, token)}}")) ∧
    check_configuration (PStr "api_key") (Some "{{secret(scope1, token)}}") =
      (Printed <$> shape, Next issues) ∧
    issues ≠ [].
Proof.
  destruct (display_agrees_with_summary
              (Sample.workspace (PStr "api_key") (PStr "scope1")
                 (Some {[ "bearer_token" := "{{secret(scope1, token)}}" ]}) (Ok []))
              "main.default.weather_conn"
              (Sample.connection (Some {[ "bearer_token" := "{{secret(scope1, token)}}" ]}))
              {[ "bearer_token" := "{{secret(scope1, token)}}" ]}
              (PStr "api_key"))
    as (before & line & shape & issues & E2 & Ec & _ & Hsecret & _).
  - reflexivity.
  - reflexivity.
  - intros H. discriminate (f_equal (λ m : gmap string string, m !! "bearer_token") H).
  - destruct Hsecret as [-> Hiff]; [reflexivity|].
    exists before, shape, issues. split_and!; [exact E2 | exact Ec |].
    apply Hiff. by left.
Defined.

(** ** Edge cases of the registry row *)

(** X9. The scope-creation guidance of Step 3 does not depend on the case of
    the error text: it is printed exactly when the text holds, in any mix of
    upper and lower case, the words "does not exist". *)
Theorem guidance_ignores_case (w : WorkspaceClient) (secret_scope auth_type : pyval)
    (text : string) :
  secrets_needed secret_scope auth_type = true →
  list_secrets w (fmt secret_scope) = Raises text →
  let said :=
    ∃ before words after,
      text = before +:+ words +:+ after ∧ lower words = "does not exist" in
  let error :=
    [Printed (nl +:+ "🔐 Step 3: Checking secret scope...");
     Call (ListSecrets (fmt secret_scope));
     Printed ("❌ Error accessing secret scope: " +:+ text)] in
  (said →
   fst (step3 w secret_scope auth_type) =
     error ++
     [Printed ("   The secret scope '" +:+ fmt secret_scope +:+ "' doesn't exist!");
      Printed ("   Create it with: databricks secrets create-scope " +:+
               fmt secret_scope)]) ∧
  (¬ said → fst (step3 w secret_scope auth_type) = error).
Proof.
  intros Hgate Hlist said error.
  rewrite (step3_raises _ _ _ text Hgate Hlist). cbn [fst].
  destruct (contains "does not exist" (lower text)) eqn:Hc.
  - split; [done|]. intros Hnot. destruct Hnot.
    apply contains_spec in Hc as (a & b & Hc).
    apply lower_split in Hc as (ta & tb & -> & _ & Hc).
    apply lower_split in Hc as (tw & tc & -> & Hw & _).
    by exists ta, tw, tc.
  - split; [|by rewrite app_nil_r].
    intros (before & words & after & -> & Hw).
    rewrite !lower_app, Hw, contains_inside in Hc. discriminate.
Qed.

Lemma guidance_ignores_case_witness :
  fst (step3 (Sample.workspace (PStr "api_key") (PStr "scope1") None
                (Raises "RESOURCE_DOES_NOT_EXIST: Scope scope1 Does Not Exist."))
         (PStr "scope1") (PStr "api_key")) =
    [Printed (nl +:+ "🔐 Step 3: Checking secret scope...");
     Call (ListSecrets "scope1");
     Printed ("❌ Error accessing secret scope: " +:+
              "RESOURCE_DOES_NOT_EXIST: Scope scope1 Does Not Exist.");
     Printed "   The secret scope 'scope1' doesn't exist!";
     Printed "   Create it with: databricks secrets create-scope scope1"].
Proof.
  apply (guidance_ignores_case
           (Sample.workspace (PStr "api_key") (PStr "scope1") None
              (Raises "RESOURCE_DOES_NOT_EXIST: Scope scope1 Does Not Exist."))
           (PStr "scope1") (PStr "api_key")
           "RESOURCE_DOES_NOT_EXIST: Scope scope1 Does Not Exist.").
  - reflexivity.
  - reflexivity.
  - by exists "RESOURCE_DOES_NOT_EXIST: Scope scope1 ", "Does Not Exist", ".".
Defined.

(** X10. An [api_key] API whose secret scope is NULL or empty skips the
    secret check, so that the secret store is never asked, and yet Step 5
    prints a statement that takes the key from that scope: its [params]
    clause reads [secret('None', 'api_key')] for a NULL scope and
    [secret('', 'api_key')] for an empty one. *)
Theorem api_key_without_scope (w : WorkspaceClient)
    (api_id warehouse catalog schema : string)
    (api_data : gmap string pyval) (conn : ConnectionInfo) :
  let secret_scope := get api_data "secret_scope" in
  let full_connection_name :=
    full_connection_name_of catalog schema (get api_data "connection_name") in
  reaches_step3 w api_id warehouse catalog schema api_data conn →
  get api_data "auth_type" = PStr "api_key" →
  truthy secret_scope = false →
  (fmt secret_scope = "None" ∨ fmt secret_scope = "") ∧
  fst (step3 w secret_scope (PStr "api_key")) =
    [Printed (nl +:+ "🔐 Step 3: Secret scope not needed (auth_type=api_key)")] ∧
  calls (debug_api w api_id warehouse catalog schema) =
    [ExecuteStatement (registry_request api_id warehouse catalog schema);
     ConnectionsGet full_connection_name] ∧
  prints_test_sql (debug_api w api_id warehouse catalog schema)
    (sql_head full_connection_name (fmt (get api_data "http_method"))
       (fmt (get api_data "api_path")) +:+
     params_api_key (fmt secret_scope) +:+ sql_headers) ∧
  contains ("secret('" +:+ fmt secret_scope +:+ "', 'api_key')")
    (params_api_key (fmt secret_scope)) = true.
Proof.
  intros secret_scope full_connection_name Hrun Hauth Hscope.
  assert (secrets_needed secret_scope (PStr "api_key") = false) as Hgate
    by (unfold secrets_needed; by rewrite Hscope).
  split_and!.
  - destruct secret_scope as [|s]; [by left|]. right. simpl in *.
    by apply negb_false_iff, String.eqb_eq in Hscope.
  - by rewrite step3_skipped.
  - destruct (debug_api_from_step3 _ _ _ _ _ _ _ Hrun) as (pre & Hpre & ->).
    fold secret_scope full_connection_name. rewrite Hauth, calls_after.
    unfold calls.
    by rewrite !calls_of_app, Hpre, step3_calls, Hgate, step5_no_calls,
      summary_no_calls.
  - apply (debug_api_prints_test_sql _ _ _ _ _ api_data conn); [done|].
    fold secret_scope full_connection_name. rewrite Hauth.
    unfold test_sql. simpl. by rewrite sql_api_key_parts.
  - apply contains_spec.
    exists ("  params => map(" +:+ nl +:+ "    'api_key', "),
      ("," +:+ nl +:+ "    -- Add your parameters here" +:+ nl +:+
       "    'param1', 'value1'" +:+ nl +:+ "  )," +:+ nl).
    unfold params_api_key. by rewrite !append_assoc.
Qed.

Lemma api_key_without_scope_witness :
  prints_test_sql
    (debug_api (Sample.workspace (PStr "api_key") PNone (Some Sample.host_only) (Ok []))
       "abc-123" "wh-1" "main" "default")
    (sql_head "main.default.weather_conn" "GET" "/v1/forecast" +:+
     params_api_key "None" +:+ sql_headers).
Proof.
  apply (api_key_without_scope
           (Sample.workspace (PStr "api_key") PNone (Some Sample.host_only) (Ok []))
           "abc-123" "wh-1" "main" "default"
           (Sample.api_data (PStr "api_key") PNone)
           (Sample.connection (Some Sample.host_only))).
  - sample_run.
  - reflexivity.
  - reflexivity.
Defined.

(** What Step 1 prints about a row it could decode. *)
Lemma step1_found_log w api_id warehouse catalog schema api_data :
  registry_found w api_id warehouse catalog schema api_data →
  step1 w api_id warehouse catalog schema =
    ([Printed "📊 Step 1: Checking API registry...";
      Call (ExecuteStatement (registry_request api_id warehouse catalog schema));
      Printed "✅ API found in registry:";
      Printed ("   Name: " +:+ fmt (get api_data "api_name"));
      Printed ("   Connection: " +:+ fmt (get api_data "connection_name"));
      Printed ("   Auth Type: " +:+ fmt (get api_data "auth_type"));
      Printed ("   Secret Scope: " +:+ or_else (get api_data "secret_scope") "None");
      Printed ("   Status: " +:+ fmt (get api_data "status"));
      Printed ("   Endpoint: " +:+ fmt (get api_data "host") +:+
               or_else (get api_data "base_path") "" +:+
               fmt (get api_data "api_path"))],
     Next api_data).
Proof.
  intros (response & row & columns & H & Hrow & Hcols & Hdict).
  unfold step1. cbv zeta. rewrite H. simpl.
  rewrite Hrow, Hcols. simpl. by rewrite Hdict.
Qed.

Lemma debug_api_step1_prefix w api_id warehouse catalog schema :
  ∃ rest,
    fst (debug_api w api_id warehouse catalog schema) =
      fst banner ++ fst (step1 w api_id warehouse catalog schema) ++ rest.
Proof.
  unfold debug_api. rewrite banner_then, log_after.
  match goal with
  | |- context [step1 ?w ?a ?b ?c ?d ≫= ?f] =>
      destruct (bind_log_prefix (step1 w a b c d) f) as [rest ->]
  end.
  by exists rest.
Qed.

(** Once the row is decoded, the second request is the lookup of the
    connection it names. *)
Lemma calls_after_found w api_id warehouse catalog schema api_data :
  registry_found w api_id warehouse catalog schema api_data →
  ∃ rest,
    calls (debug_api w api_id warehouse catalog schema) =
      [ExecuteStatement (registry_request api_id warehouse catalog schema);
       ConnectionsGet
         (full_connection_name_of catalog schema (get api_data "connection_name"))] ++
      rest.
Proof.
  intros Hfound.
  destruct (connections_get w
              (full_connection_name_of catalog schema (get api_data "connection_name")))
    as [conn|text] eqn:Hconn.
  - destruct (debug_api_from_step3 _ _ _ _ _ api_data conn (conj Hfound Hconn))
      as (pre & Hpre & ->).
    rewrite calls_after. unfold calls. rewrite !calls_of_app, Hpre. eauto.
  - rewrite (debug_api_step2_raises _ _ _ _ _ api_data text Hfound Hconn).
    unfold calls. cbn [fst]. rewrite !calls_of_app.
    rewrite (step1_found_calls _ _ _ _ _ _ Hfound). by exists [].
Qed.

(** X11. When the result has no [connection_name] column, the row still
    decodes: Step 1 prints the connection as [None], and the connection
    looked up in Step 2 is the one named [<catalog>.<schema>.None]. *)
Theorem missing_connection_name_column (w : WorkspaceClient)
    (api_id warehouse catalog schema : string)
    (response : StatementResponse) (row : list pyval) (columns : list string) :
  execute_statement w (registry_request api_id warehouse catalog schema) = Ok response →
  first_row response = Some row →
  manifest_columns response = Ok columns →
  length columns ≤ length row →
  "connection_name" ∉ columns →
  "   Connection: None" ∈ stdout (debug_api w api_id warehouse catalog schema) ∧
  ∃ rest,
    calls (debug_api w api_id warehouse catalog schema) =
      [ExecuteStatement (registry_request api_id warehouse catalog schema);
       ConnectionsGet (catalog +:+ "." +:+ schema +:+ ".None")] ++ rest.
Proof.
  intros H Hrow Hcols Hlen Hmissing.
  destruct (dict_of_row_enough columns row Hlen) as [api_data Hdict].
  assert (registry_found w api_id warehouse catalog schema api_data) as Hfound
    by (exists response, row, columns; done).
  assert (get api_data "connection_name" = PNone) as Hget.
  { unfold get. by rewrite (dict_of_row_missing _ _ _ _ Hdict Hmissing). }
  split.
  - destruct (debug_api_step1_prefix w api_id warehouse catalog schema) as [rest E].
    unfold stdout. rewrite E, (step1_found_log _ _ _ _ _ _ Hfound), Hget.
    rewrite !prints_app. apply elem_of_app. right. apply elem_of_app. left.
    cbn [fst prints fmt]. rewrite !elem_of_cons. auto.
  - destruct (calls_after_found _ _ _ _ _ _ Hfound) as [rest E].
    rewrite Hget in E. by exists rest.
Qed.

Lemma missing_connection_name_column_witness :
  "   Connection: None" ∈
    stdout (debug_api
              {| execute_statement := λ _,
                   Ok {| result_ := Some {| data_array := Some [[PStr "abc-123"]] |};
                         manifest_columns := Ok ["api_id"] |};
                 connections_get := λ _, Raises "not found";
                 list_secrets := λ _, Ok [] |}
              "abc-123" "wh-1" "main" "default").
Proof.
  apply (missing_connection_name_column _ "abc-123" "wh-1" "main" "default"
           {| result_ := Some {| data_array := Some [[PStr "abc-123"]] |};
              manifest_columns := Ok ["api_id"] |}
           [PStr "abc-123"] ["api_id"]).
  - reflexivity.
  - reflexivity.
  - reflexivity.
  - simpl. lia.
  - intros Hin. apply elem_of_cons in Hin as [Hin|Hin];
      [discriminate Hin | by apply elem_of_nil in Hin].
Defined.

(** ** Missing options and early returns *)

Lemma dict_truthy_false (o : option (gmap string string)) :
  dict_truthy o = false ↔ o = None ∨ o = Some ∅.
Proof.
  destruct o as [d|]; simpl; [|by intuition].
  rewrite negb_false_iff, bool_decide_eq_true. split; [intros ->; by right|].
  by intros [?|[= ->]].
Qed.

(** X12. A connection whose options mapping is absent is shown like one
    whose mapping is empty: host and base path read [N/A], no line about
    [bearer_token] is printed, and [bearer_token] is left unassigned.  A
    non-empty mapping that lacks the [host] or [base_path] key shows [None]
    for it instead. *)
Theorem options_display (w : WorkspaceClient) (full_connection_name : string)
    (conn : ConnectionInfo) :
  connections_get w full_connection_name = Ok conn →
  (options conn = None ∨ options conn = Some ∅ →
   step2 w full_connection_name =
     ([Printed (nl +:+ "🔌 Step 2: Checking UC HTTP Connection...");
       Call (ConnectionsGet full_connection_name);
       Printed ("✅ Connection exists: " +:+ full_connection_name);
       Printed "   Host: N/A";
       Printed "   Base Path: N/A";
       Printed ("   Owner: " +:+ fmt (owner conn))],
      Next None)) ∧
  (∀ opts,
     options conn = Some opts → opts ≠ ∅ →
     opts !! "host" = None → opts !! "base_path" = None →
     ∃ line,
       step2 w full_connection_name =
         ([Printed (nl +:+ "🔌 Step 2: Checking UC HTTP Connection...");
           Call (ConnectionsGet full_connection_name);
           Printed ("✅ Connection exists: " +:+ full_connection_name);
           Printed "   Host: None";
           Printed "   Base Path: None";
           Printed ("   Owner: " +:+ fmt (owner conn));
           Printed line],
          Next (Some (default "NOT_SET" (opts !! "bearer_token"))))).
Proof.
  intros H. split.
  - intros Hopts%dict_truthy_false. unfold step2. rewrite H. simpl.
    by rewrite Hopts.
  - intros opts Hopts Hne Hhost Hbase.
    rewrite (step2_classified _ _ _ _ H Hopts Hne), Hhost, Hbase. eauto.
Qed.

Lemma options_display_witness :
  step2 (Sample.workspace (PStr "none") PNone (Some ∅) (Ok []))
    "main.default.weather_conn" =
    ([Printed (nl +:+ "🔌 Step 2: Checking UC HTTP Connection...");
      Call (ConnectionsGet "main.default.weather_conn");
      Printed "✅ Connection exists: main.default.weather_conn";
      Printed "   Host: N/A";
      Printed "   Base Path: N/A";
      Printed "   Owner: admin"],
     Next None).
Proof.
  apply (proj1 (options_display
                  (Sample.workspace (PStr "none") PNone (Some ∅) (Ok []))
                  "main.default.weather_conn" (Sample.connection (Some ∅)) eq_refl)).
  by right.
Defined.

(** X13. A run never ends early without saying why: when [debug_api] returns
    before the summary, the last line it printed is the error of the registry
    query, the table in which the API was not found, or the name of the
    connection that could not be fetched. *)
Theorem early_return_is_explained (w : WorkspaceClient)
    (api_id warehouse catalog schema : string) :
  outcome (debug_api w api_id warehouse catalog schema) = Returned →
  ∃ line,
    last (stdout (debug_api w api_id warehouse catalog schema)) = Some line ∧
    ((∃ text, line = "❌ Error querying registry: " +:+ text) ∨
     line = "   Table: " +:+ catalog +:+ "." +:+ schema +:+ ".api_http_registry" ∨
     (∃ api_data,
        registry_found w api_id warehouse catalog schema api_data ∧
        line =
          "   Expected name: " +:+ catalog +:+ "." +:+ schema +:+ "." +:+
          fmt (get api_data "connection_name"))).
Proof.
  intros Hout.
  destruct (workspace_cases w api_id warehouse catalog schema)
    as [[text H] | [(response & H & Hrow) | [[text H] |
        [(api_data & text & Hfound & H) | (api_data & conn & Hrun)]]]].
  - rewrite (debug_api_step1_ends _ _ _ _ _ _ (step1_raises _ _ _ _ _ _ H)).
    eexists. split; [reflexivity|]. left. eauto.
  - rewrite (debug_api_step1_ends _ _ _ _ _ _ (step1_no_rows _ _ _ _ _ _ H Hrow)).
    eexists. split; [reflexivity|]. by right; left.
  - rewrite (debug_api_step1_ends _ _ _ _ _ _ (step1_decode_fails _ _ _ _ _ _ H)).
    eexists. split; [reflexivity|]. left. eauto.
  - rewrite (debug_api_step2_raises _ _ _ _ _ api_data text Hfound H).
    eexists. split.
    + unfold stdout. cbn [fst]. rewrite app_assoc, prints_app. cbn [prints].
      rewrite last_app. reflexivity.
    + right; right. by exists api_data.
  - exfalso. revert Hout.
    destruct (debug_api_from_step3 _ _ _ _ _ _ _ Hrun) as (pre & _ & ->).
    rewrite outcome_after. unfold outcome. rewrite summary_outcome.
    destruct (bearer_token_of conn); [done|]. by destruct (in_lits _ _).
Qed.

Lemma early_return_witness :
  last (stdout (debug_api Sample.no_connection "abc-123" "wh-1" "main" "default")) =
    Some "   Expected name: main.default.weather_conn".
Proof.
  destruct (early_return_is_explained Sample.no_connection
              "abc-123" "wh-1" "main" "default") as (line & Hlast & _).
  - reflexivity.
  - rewrite Hlast. f_equal. revert Hlast. vm_compute. by intros [= <-].
Defined.
